(** * AnyAgent: the publish script, the proto package and the invocation protocol

    Three parts of the repository are embedded here.

    - [publish.py]: [run_command] and [main], written in a small monad that
      threads the host machine and standard input, records every observable
      event, and carries Python's two ways of leaving early ([sys.exit] and an
      uncaught exception).
    - [anyagent/proto/__init__.py]: the three module-level statements,
      executed by a model of Python's import of a package.
    - The Agent Invocation Protocol of the specification (session state
      machine and service handler), for which the repository has no code.

    Definitions come first, theorems after them. *)

From stdpp Require Import gmap strings list fin_maps.
From Stdlib Require Import ZArith Ascii String Lia.

Open Scope Z_scope.
Open Scope string_scope.
Open Scope list_scope.

(* ===================================================================== *)
(** * Part I: publish.py                                                  *)
(* ===================================================================== *)

(** ** The outside world of the script *)

(** What [subprocess.run(..., capture_output=True, text=True)] hands back
    once the child has exited. *)
Record CompletedProcess := {
  returncode : Z;
  stdout : string;
  stderr : string
}.

(** The host the script runs on: its file system, network and package
    indexes are one opaque state; the script reaches it through
    [os.path.exists] and through the shell only. *)
Class System := {
  machine : Type;
  path_exists : string -> machine -> bool;
  shell : string -> machine -> CompletedProcess * machine
}.

(** Exceptions the script can meet.  [subprocess.CalledProcessError] keeps
    the command and the result of the child; [EOFError] is what [input]
    raises when standard input is exhausted. *)
Inductive exn :=
| CalledProcessError (cmd : string) (p : CompletedProcess)
| EOFError.

(** Everything an observer of the terminal and of the shell can see. *)
Inductive Event :=
| EPrint (line : string)
| EInput (prompt : string) (response : option string)
| ERun (cmd : string) (p : CompletedProcess).

(** How a piece of Python code ends. *)
Inductive ending (A : Type) :=
| Returned (a : A)
| Raised (e : exn)
| SystemExit (code : Z).
Arguments Returned {A} a.
Arguments Raised {A} e.
Arguments SystemExit {A} code.

Section PublishScript.
Context `{Sys : System}.

(** The part of the world the script changes: the host and the lines the
    user has still to type. *)
Record world := { host : machine; stdin : list string }.

(** A computation takes the world and yields how it ended, the world after
    it and the events it caused, oldest first. *)
Definition M (A : Type) : Type := world -> ending A * world * list Event.

Definition ret {A} (a : A) : M A := fun w => (Returned a, w, []).

Definition bind {A B} (m : M A) (k : A -> M B) : M B := fun w =>
  let '(o, w1, t1) := m w in
  match o with
  | Returned a => let '(o2, w2, t2) := k a w1 in (o2, w2, t1 ++ t2)
  | Raised e => (Raised e, w1, t1)
  | SystemExit c => (SystemExit c, w1, t1)
  end.

Notation "x <- m ;; k" := (bind m (fun x => k))
  (at level 100, m at next level, right associativity).
Notation "m ;; k" := (bind m (fun _ => k))
  (at level 100, right associativity).

(** [print(line)] *)
Definition print (line : string) : M unit := fun w =>
  (Returned tt, w, [EPrint line]).

(** [input(prompt)]: the prompt is shown, then one line is read. *)
Definition input (prompt : string) : M string := fun w =>
  match stdin w with
  | [] => (Raised EOFError, w, [EInput prompt None])
  | r :: rest =>
      (Returned r, {| host := host w; stdin := rest |}, [EInput prompt (Some r)])
  end.

(** [os.path.exists(p)] *)
Definition os_path_exists (p : string) : M bool := fun w =>
  (Returned (path_exists p (host w)), w, []).

(** [sys.exit(code)] *)
Definition sys_exit {A} (code : Z) : M A := fun w => (SystemExit code, w, []).

(** [subprocess.run(cmd, shell=True, check=True, capture_output=True,
    text=True)]: the child runs to its end; [check=True] turns a non-zero
    exit status into [CalledProcessError]. *)
Definition subprocess_run (cmd : string) : M CompletedProcess := fun w =>
  let '(p, h) := shell cmd (host w) in
  let w' := {| host := h; stdin := stdin w |} in
  if (returncode p =? 0)%Z
  then (Returned p, w', [ERun cmd p])
  else (Raised (CalledProcessError cmd p), w', [ERun cmd p]).

(** [try: body / except subprocess.CalledProcessError as e: handler]:
    [EOFError] and [SystemExit] are not caught. *)
Definition try_except_CalledProcessError {A}
    (body : M A) (handler : CompletedProcess -> M A) : M A := fun w =>
  let '(o, w1, t1) := body w in
  match o with
  | Raised (CalledProcessError _ e) =>
      let '(o2, w2, t2) := handler e w1 in (o2, w2, t1 ++ t2)
  | _ => (o, w1, t1)
  end.

(** [str.lower] on the bytes of the text: the letters A to Z are lowered,
    every other byte is kept.  Python lowers letters outside ASCII as well;
    the script only compares the result with ["y"], and Y is the one
    character besides y whose lower case is y, so the comparison is the
    same. *)
Definition lower_ascii (c : ascii) : ascii :=
  let n := nat_of_ascii c in
  if ((65 <=? n) && (n <=? 90))%nat then ascii_of_nat (n + 32) else c.

Fixpoint lower (s : string) : string :=
  match s with
  | EmptyString => EmptyString
  | String c rest => String (lower_ascii c) (lower rest)
  end.

(** ** The script *)

(** publish.py, lines 10 to 20. *)
Definition run_command (cmd description : string) : M string :=
  print ("🔄 " +:+ description +:+ "...") ;;
  try_except_CalledProcessError
    (result <- subprocess_run cmd ;;
     print ("✅ " +:+ description +:+ " completed") ;;
     ret (stdout result))
    (fun e =>
     print ("❌ " +:+ description +:+ " failed:") ;;
     print ("Error: " +:+ stderr e) ;;
     sys_exit 1).

(** The commands and prompts of [main], named for the statements below. *)
Definition clean_cmd : string := "rm -rf build/ dist/ *.egg-info/".
Definition build_cmd : string := "python3 setup.py sdist bdist_wheel".
Definition check_cmd : string := "python3 -m twine check dist/*".
Definition testpypi_upload_cmd : string :=
  "python3 -m twine upload --repository testpypi dist/*".
Definition test_install_cmd : string :=
  "pip install --index-url https://test.pypi.org/simple/ --extra-index-url https://pypi.org/simple/ anyagent".
Definition pypi_upload_cmd : string := "python3 -m twine upload dist/*".

Definition testpypi_prompt : string := "🤔 Upload to TestPyPI first? (y/n): ".
Definition test_install_prompt : string := "🧪 Test install from TestPyPI? (y/n): ".
Definition pypi_prompt : string := "🚀 Upload to production PyPI? (y/n): ".

Definition when (b : bool) (m : M unit) : M unit := if b then m else ret tt.

(** publish.py, lines 23 to 64. *)
Definition main : M unit :=
  print "🚀 Publishing AnyAgent Framework to PyPI" ;;
  ex <- os_path_exists "setup.py" ;;
  when (negb ex)
    (print "❌ setup.py not found. Run this from the project root." ;;
     sys_exit 1) ;;
  run_command clean_cmd "Cleaning previous builds" ;;
  run_command build_cmd "Building package" ;;
  run_command check_cmd "Checking package" ;;
  response <- input testpypi_prompt ;;
  when (String.eqb (lower response) "y")
    (print "📦 Uploading to TestPyPI..." ;;
     run_command testpypi_upload_cmd "Uploading to TestPyPI" ;;
     print "✅ Uploaded to TestPyPI!" ;;
     print "🔗 Check: https://test.pypi.org/project/anyagent/" ;;
     test_response <- input test_install_prompt ;;
     when (String.eqb (lower test_response) "y")
       (run_command test_install_cmd "Testing install from TestPyPI" ;;
        ret tt)) ;;
  response <- input pypi_prompt ;;
  (if String.eqb (lower response) "y"
   then
     run_command pypi_upload_cmd "Uploading to PyPI" ;;
     print "🎉 AnyAgent Framework published to PyPI!" ;;
     print "🔗 Check: https://pypi.org/project/anyagent/" ;;
     print "📦 Install with: pip install anyagent"
   else
     print "⏸️  Skipped production upload") ;;
  print "✅ Done!".

(** The exit status of the interpreter that ran [main()] as the script's
    last statement: 0 after a normal return, the code of [sys.exit], and 1
    after an uncaught exception. *)
Definition exit_status (o : ending unit) : Z :=
  match o with
  | Returned _ => 0
  | SystemExit c => c
  | Raised _ => 1
  end.

(** The commands handed to the shell, in order. *)
Fixpoint commands (t : list Event) : list (string * CompletedProcess) :=
  match t with
  | [] => []
  | ERun c p :: t' => (c, p) :: commands t'
  | _ :: t' => commands t'
  end.

End PublishScript.

(** A toy host for examples: the machine is the list of paths that exist,
    the commands listed in [failing] exit with status 1 and leave the files
    alone, the cleaning command removes [build] and [dist], the build
    command creates them; every other command succeeds without touching the
    files. *)
Definition toy_shell (failing : list string) (cmd : string)
    (files : list string) : CompletedProcess * list string :=
  if bool_decide (cmd ∈ failing)
  then ({| returncode := 1; stdout := ""; stderr := "boom" |}, files)
  else if String.eqb cmd clean_cmd
  then ({| returncode := 0; stdout := ""; stderr := "" |},
        filter (fun p => p ≠ "build" ∧ p ≠ "dist") files)
  else if String.eqb cmd build_cmd
  then ({| returncode := 0; stdout := "built"; stderr := "" |},
        "build" :: "dist" :: files)
  else ({| returncode := 0; stdout := ""; stderr := "" |}, files).

Definition toy_system (failing : list string) : System := {|
  machine := list string;
  path_exists := fun p files => bool_decide (p ∈ files);
  shell := toy_shell failing
|}.

Definition toy_world (failing files typed : list string)
    : @world (toy_system failing) :=
  @Build_world (toy_system failing) files typed.

Definition toy_main (failing files typed : list string) :=
  @main (toy_system failing) (toy_world failing files typed).

(** ** Reading a trace of events *)

(** [ran cmd t]: the command was handed to the shell somewhere in [t]. *)
Fixpoint ran (cmd : string) (t : list Event) : bool :=
  match t with
  | [] => false
  | ERun c _ :: t' => String.eqb c cmd || ran cmd t'
  | _ :: t' => ran cmd t'
  end.

(** [responses prompt t]: what the user typed at each showing of [prompt]. *)
Fixpoint responses (prompt : string) (t : list Event) : list string :=
  match t with
  | [] => []
  | EInput q (Some r) :: t' =>
      if String.eqb q prompt then r :: responses prompt t' else responses prompt t'
  | _ :: t' => responses prompt t'
  end.

(** The two commands that send the distribution to a package index. *)
Definition is_upload (cmd : string) : bool :=
  String.eqb cmd testpypi_upload_cmd || String.eqb cmd pypi_upload_cmd.



(** Scanning a trace with the flag [built] (a build has succeeded so far):
    every upload finds the flag set. *)
Fixpoint uploads_follow_build (built : bool) (t : list Event) : Prop :=
  match t with
  | [] => True
  | ERun c p :: t' =>
      (is_upload c = true -> built = true)
      ∧ uploads_follow_build
          (built || (String.eqb c build_cmd && (returncode p =? 0)%Z)) t'
  | _ :: t' => uploads_follow_build built t'
  end.

(** ** Reading a trace of events, continued *)

(** The six commands of [main] in the order of the script (publish.py,
    lines 32, 35, 38, 44, 51 and 56). *)
Definition script_order : list string :=
  [clean_cmd; build_cmd; check_cmd; testpypi_upload_cmd; test_install_cmd;
   pypi_upload_cmd].

(** The commands that stand before an event on every path of [main] that
    leads to it: before the build, the cleaning; before the check, the
    build too; before an upload and before the prompts, the check too;
    before the test install and its prompt, the upload to TestPyPI as
    well (they sit inside its branch, lines 42 to 51). *)
Definition prerequisites (e : Event) : list string :=
  match e with
  | EPrint _ => []
  | ERun c _ =>
      if String.eqb c build_cmd then [clean_cmd]
      else if String.eqb c check_cmd then [clean_cmd; build_cmd]
      else if is_upload c then [clean_cmd; build_cmd; check_cmd]
      else if String.eqb c test_install_cmd
      then [clean_cmd; build_cmd; check_cmd; testpypi_upload_cmd]
      else []
  | EInput q _ =>
      if String.eqb q test_install_prompt
      then [clean_cmd; build_cmd; check_cmd; testpypi_upload_cmd]
      else [clean_cmd; build_cmd; check_cmd]
  end.

(** The command an event shows to have exited with status 0, if any. *)
Definition succeeded (e : Event) : list string :=
  match e with
  | ERun c p => if (returncode p =? 0)%Z then [c] else []
  | _ => []
  end.

Definition all_in (need done : list string) : bool :=
  forallb (fun d => existsb (String.eqb d) done) need.

(** Scanning a trace with the commands that have succeeded so far: every
    event finds its prerequisites among them. *)
Fixpoint needs_met (done : list string) (t : list Event) : Prop :=
  match t with
  | [] => True
  | e :: t' =>
      all_in (prerequisites e) done = true ∧ needs_met (succeeded e ++ done) t'
  end.

(** The lines the user typed, in order. *)
Fixpoint typed (t : list Event) : list string :=
  match t with
  | [] => []
  | EInput _ (Some r) :: t' => r :: typed t'
  | _ :: t' => typed t'
  end.



Section Replay.
Context `{Sys : System}.

(** Handing commands to the shell one after another, each on the host the
    one before it left. *)
Fixpoint shell_seq (cmds : list string) (h : machine)
    : list CompletedProcess * machine :=
  match cmds with
  | [] => ([], h)
  | c :: rest =>
      let '(p, h1) := shell c h in
      let '(ps, h2) := shell_seq rest h1 in
      (p :: ps, h2)
  end.

End Replay.

(* ===================================================================== *)
(** * Part II: anyagent/proto/__init__.py                                 *)
(* ===================================================================== *)

(** ** A model of importing a Python package *)

(** The values the package's namespace can hold.  A module object is
    shared: it is referred to by the name under which [sys.modules] holds
    it. *)
#[warnings="-register-all"]
Inductive pyval :=
| VNone
| VStr (s : string)
| VList (items : list pyval)
| VModule (qualname : string).

(** A module's namespace (its [__dict__]) and [sys.modules]. *)
Abbreviation namespace := (gmap string pyval).
Abbreviation modules := (gmap string (gmap string pyval)).

(** The statements found at the top level of [__init__.py]. *)
Inductive stmt :=
| DocString (text : string)
| FromImport (name : string)             (* from . import name *)
| Assign (target : string) (v : pyval).  (* target = literal *)

(** [ImportError: cannot import name 'name' from 'pkg'] *)
Inductive py_exn :=
| ImportError (name : string) (pkg : string).

Inductive result :=
| Normal (sys : modules)
| Raise (e : py_exn) (sys : modules).

Definition submodule_name (pkg name : string) : string :=
  pkg +:+ "." +:+ name.

(** Binding a name in the namespace of the module registered as [pkg]: the
    globals of the package body are that module's [__dict__]. *)
Definition store_name (pkg name : string) (v : pyval) (sys : modules) : modules :=
  alter (insert name v) pkg sys.

Section ImportStatement.
(** The modules that can be found and loaded, with the namespace each one
    has once its own body has run.  The generated modules [agent_pb2] and
    [agent_pb2_grpc] are not part of the sources; a module that the finder
    does not know is missing. *)
Variable finder : string -> option (gmap string pyval).

(** importlib's import of the submodule [pkg.name]: a module already in
    [sys.modules] is taken from there; otherwise, if it is found, it is
    registered and bound as an attribute of the parent package; if it is
    not found, nothing changes (the [ModuleNotFoundError] is swallowed by
    the handling of the from-list). *)
Definition import_submodule (pkg name : string) (sys : modules) : modules :=
  let q := submodule_name pkg name in
  match sys !! q with
  | Some _ => sys
  | None =>
      match finder q with
      | Some ns => store_name pkg name (VModule q) (<[q := ns]> sys)
      | None => sys
      end
  end.

(** [from . import name] inside the body of [pkg]: the submodule is
    imported unless the package already has the attribute; then the
    attribute is read, falling back on [sys.modules], and stored under
    [name]. *)
Definition from_import (pkg name : string) (sys : modules) : result :=
  let q := submodule_name pkg name in
  let sys1 :=
    match default ∅ (sys !! pkg) !! name with
    | Some _ => sys
    | None => import_submodule pkg name sys
    end in
  match default ∅ (sys1 !! pkg) !! name with
  | Some v => Normal (store_name pkg name v sys1)
  | None =>
      match sys1 !! q with
      | Some _ => Normal (store_name pkg name (VModule q) sys1)
      | None => Raise (ImportError name pkg) sys1
      end
  end.

Definition exec_stmt (pkg : string) (s : stmt) (sys : modules) : result :=
  match s with
  | DocString text => Normal (store_name pkg "__doc__" (VStr text) sys)
  | FromImport name => from_import pkg name sys
  | Assign target v => Normal (store_name pkg target v sys)
  end.

(** The body runs statement by statement and stops at the first exception. *)
Fixpoint exec_body (pkg : string) (body : list stmt) (sys : modules) : result :=
  match body with
  | [] => Normal sys
  | s :: rest =>
      match exec_stmt pkg s sys with
      | Normal sys1 => exec_body pkg rest sys1
      | Raise e sys1 => Raise e sys1
      end
  end.

(** The namespace a package starts its body with.  The loader sets further
    attributes ([__path__], [__file__], [__spec__], ...) whose values depend
    on the installation; all of them are dunder names. *)
Definition initial_namespace (pkg : string) : gmap string pyval :=
  {[ "__name__" := VStr pkg; "__package__" := VStr pkg; "__doc__" := VNone ]}.

(** Importing the package [pkg] whose [__init__.py] is [body]: a package
    already in [sys.modules] is not run again; otherwise the new module is
    registered, its body runs, and on an exception the module is removed
    from [sys.modules] before the exception goes on to the importer. *)
Definition import_package (pkg : string) (body : list stmt) (sys : modules)
    : result :=
  match sys !! pkg with
  | Some _ => Normal sys
  | None =>
      match exec_body pkg body (<[pkg := initial_namespace pkg]> sys) with
      | Normal sys1 => Normal sys1
      | Raise e sys1 => Raise e (delete pkg sys1)
      end
  end.

(** A submodule is importable when it is already loaded or can be found;
    [loaded_or_found] is the module an import of it yields. *)
Definition importable (q : string) (sys : modules) : Prop :=
  is_Some (sys !! q) ∨ is_Some (finder q).

Definition loaded_or_found (q : string) (sys : modules)
    : option (gmap string pyval) :=
  match sys !! q with
  | Some m => Some m
  | None => finder q
  end.

End ImportStatement.

(** ** The package *)

Definition proto_pkg : string := "anyagent.proto".

(** anyagent/proto/__init__.py, lines 1 to 10. *)
Definition proto_doc : string := "
Proto package for AnyAgent framework.

Contains the gRPC protocol buffer definitions and generated code.
".

Definition proto_init : list stmt :=
  [ DocString proto_doc;
    FromImport "agent_pb2";
    FromImport "agent_pb2_grpc";
    Assign "__all__" (VList [VStr "agent_pb2"; VStr "agent_pb2_grpc"]) ].

(** The names under which [sys.modules] holds the two generated modules. *)
Definition agent_pb2_module : string := "anyagent.proto.agent_pb2".
Definition agent_pb2_grpc_module : string := "anyagent.proto.agent_pb2_grpc".

Definition import_proto (finder : string -> option (gmap string pyval))
    (sys : modules) : result :=
  import_package finder proto_pkg proto_init sys.

(** ** The public surface of a module *)

(** A name is public when it does not start with an underscore. *)
Definition is_public (name : string) : bool := negb (String.prefix "_" name).

Definition public_names (ns : gmap string pyval) : gset string :=
  dom (filter (fun kv => is_public kv.1 = true) ns).

Fixpoint str_items (items : list pyval) : list string :=
  match items with
  | [] => []
  | VStr s :: rest => s :: str_items rest
  | _ :: rest => str_items rest
  end.

(** The names [from pkg import *] binds: those listed in [__all__] when the
    module defines it, otherwise the public names. *)
Definition star_exports (ns : gmap string pyval) : list string :=
  match ns !! "__all__" with
  | Some (VList items) => str_items items
  | _ => elements (public_names ns)
  end.

(** A toy finder for examples: the generated modules listed in [present]
    can be found, each with an empty namespace of its own. *)
Definition toy_finder (present : list string) (q : string)
    : option (gmap string pyval) :=
  if bool_decide (q ∈ present) then Some ∅ else None.

(** [sys.modules] as an import leaves it, whether it returned or raised. *)
Definition result_modules (r : result) : modules :=
  match r with
  | Normal sys => sys
  | Raise _ sys => sys
  end.

(** The namespace of the package once the four statements of its body have
    run. *)
Definition proto_namespace : gmap string pyval :=
  <["__all__" := VList [VStr "agent_pb2"; VStr "agent_pb2_grpc"]]>
    (<["agent_pb2_grpc" := VModule agent_pb2_grpc_module]>
       (<["agent_pb2" := VModule agent_pb2_module]>
          (<["__doc__" := VStr proto_doc]> (initial_namespace proto_pkg)))).

(* ===================================================================== *)
(** * Part III: the Agent Invocation Protocol                             *)
(* ===================================================================== *)

(** The repository holds the importer of the generated message and service
    modules and nothing of the service itself.  Every definition of this
    part follows the specification. *)

(** ** Message schema (specification, section 3) *)

(** Modelled from the spec: the InvocationRequest message, whose schema
    module [agent_pb2] is not in the sources.  The deadline is an optional
    absolute time. *)
Record InvocationRequest := {
  request_id : string;
  payload : string;
  deadline : option Z
}.

(** Modelled from the spec: the OutputChunk message of the missing schema
    module. *)
Record OutputChunk := {
  chunk_request_id : string;
  sequence_number : nat;
  data : string
}.

(** Modelled from the spec: the three outcomes a TerminalStatus of the
    missing schema module can carry. *)
Inductive Outcome := completed | failed | cancelled.

(** Modelled from the spec: the TerminalStatus message of the missing
    schema module. *)
Record TerminalStatus := {
  status_request_id : string;
  outcome : Outcome;
  detail : string
}.

(** Modelled from the spec: the response stream of the missing service, a
    tagged union of chunks and terminal statuses on one ordered stream. *)
Inductive Message :=
| Chunk (c : OutputChunk)
| Terminal (ts : TerminalStatus).

(** Modelled from the spec: the HealthStatus message of the missing schema
    module. *)
Record HealthStatus := {
  serving : bool;
  active_session_count : nat
}.

(** Modelled from the spec: the error kinds of section 7, for the missing
    service handler. *)
Inductive ErrorKind :=
| InvalidRequest
| DuplicateRequest
| DeadlineExceeded
| NotFound
| ProtocolViolation
| TimeoutError
| AgentFailure.

(** ** Session state machine (specification, section 4.2) *)

(** Modelled from the spec: the states of the missing session state
    machine. *)
Inductive State := PENDING | RUNNING | COMPLETED | FAILED | CANCELLED.

(** Modelled from the spec: the terminal states of the missing state
    machine. *)
Definition is_terminal (st : State) : bool :=
  match st with
  | COMPLETED | FAILED | CANCELLED => true
  | PENDING | RUNNING => false
  end.

(** Modelled from the spec: the Session record of the missing handler,
    binding a request id to the state, the accumulated sequence number and
    the cancellation flag. *)
Record Session := {
  session_request_id : string;
  state : State;
  next_sequence_number : nat;
  cancel_requested : bool
}.

(** Modelled from the spec: the Session the missing handler creates on
    receipt of a request. *)
Definition new_session (rid : string) : Session :=
  {| session_request_id := rid; state := PENDING;
     next_sequence_number := 0; cancel_requested := false |}.

(** Modelled from the spec: what the missing work function can signal to
    the handler: an explicit start, the production of a chunk (the only
    point where it yields control), the normal end of work, an unrecoverable
    error. *)
Inductive WorkEvent :=
| Started
| Yielded (d : string)
| Finished (summary : string)
| Errored (description : string).

(** Modelled from the spec: entering a state of the missing state machine. *)
Definition enter (st : State) (s : Session) : Session :=
  {| session_request_id := session_request_id s; state := st;
     next_sequence_number := next_sequence_number s;
     cancel_requested := cancel_requested s |}.

(** Modelled from the spec: the TerminalStatus the missing state machine
    emits on entering a terminal state. *)
Definition terminal_message (s : Session) (o : Outcome) (text : string)
    : Message :=
  Terminal {| status_request_id := session_request_id s;
              outcome := o; detail := text |}.

(** Modelled from the spec: the transitions of the missing session state
    machine, with the messages each one emits.  A pending session starts on
    the start signal or on its first chunk; each chunk carries the current
    sequence number, which then grows by one; a cancellation request is
    observed at the next chunk boundary, before the chunk is emitted, and it
    does not pre-empt the normal end of work or an error; an event for which
    the specification lists no transition changes nothing. *)
Definition session_step (s : Session) (e : WorkEvent) : Session * list Message :=
  match state s, e with
  | PENDING, Started => (enter RUNNING s, [])
  | (PENDING | RUNNING), Yielded d =>
      if cancel_requested s
      then (enter CANCELLED s, [terminal_message s cancelled "cancelled"])
      else ({| session_request_id := session_request_id s; state := RUNNING;
               next_sequence_number := S (next_sequence_number s);
               cancel_requested := cancel_requested s |},
            [Chunk {| chunk_request_id := session_request_id s;
                      sequence_number := next_sequence_number s;
                      data := d |}])
  | RUNNING, Finished summary =>
      (enter COMPLETED s, [terminal_message s completed summary])
  | (PENDING | RUNNING), Errored description =>
      (enter FAILED s, [terminal_message s failed description])
  | _, _ => (s, [])
  end.

(** Modelled from the spec: how the missing handler records a cancellation
    request on a session; a session in a terminal state is left as it is. *)
Definition request_cancel (s : Session) : Session :=
  if is_terminal (state s) then s
  else {| session_request_id := session_request_id s; state := state s;
          next_sequence_number := next_sequence_number s;
          cancel_requested := true |}.

(** ** Agent service handler (specification, section 4.3) *)

(** Modelled from the spec: the state of the missing service handler: the
    session table, the request ids it has ever admitted (a Cancel answers
    NotFound only for an id it never saw), the messages produced so far on
    the response streams, oldest first, and the serving flag. *)
Record Handler := {
  sessions : gmap string Session;
  seen : gset string;
  wire : list Message;
  is_serving : bool
}.

(** Modelled from the spec: the missing handler as it starts. *)
Definition initial_handler : Handler :=
  {| sessions := ∅; seen := ∅; wire := []; is_serving := true |}.

(** Modelled from the spec: what reaches the missing handler: the three
    operations of the wire surface, a signal of the work function of a
    session, and the destruction of a session once its terminal status has
    been delivered and acknowledged (or its retention has timed out).
    [Invoke] comes with the time of admission. *)
Inductive Call :=
| Invoke (req : InvocationRequest) (now : Z)
| Cancel (rid : string)
| Health
| Work (rid : string) (e : WorkEvent)
| Destroy (rid : string).

(** Modelled from the spec: the answers of the missing handler. *)
Inductive Reply :=
| Accepted
| Rejected (kind : ErrorKind)
| Acknowledged
| HealthReport (hs : HealthStatus)
| NoReply.

(** Modelled from the spec: a deadline already in the past at admission, for
    the missing handler. *)
Definition deadline_passed (req : InvocationRequest) (now : Z) : bool :=
  match deadline req with
  | Some d => (d <? now)%Z
  | None => false
  end.

(** Modelled from the spec: the health report of the missing handler,
    answered from the table alone; a session is active from its creation to
    its destruction. *)
Definition health (h : Handler) : HealthStatus :=
  {| serving := is_serving h; active_session_count := size (sessions h) |}.

(** Modelled from the spec: the operations of the missing service handler.
    Admission checks the deadline, then the request id (empty, then already
    active), and only then creates the Session; the specification does not
    fix the order of the three checks.  Cancel records the request on a
    session that is not terminal and has no effect otherwise.  A signal of
    the work function drives the state machine of its session and appends
    what it emits to the stream.  A session is destroyed only in a terminal
    state. *)
Definition handle (h : Handler) (c : Call) : Handler * Reply :=
  match c with
  | Invoke req now =>
      if deadline_passed req now then (h, Rejected DeadlineExceeded)
      else if String.eqb (request_id req) "" then (h, Rejected InvalidRequest)
      else if bool_decide (is_Some (sessions h !! request_id req))
      then (h, Rejected DuplicateRequest)
      else ({| sessions := <[request_id req := new_session (request_id req)]>
                             (sessions h);
               seen := {[request_id req]} ∪ seen h;
               wire := wire h;
               is_serving := is_serving h |}, Accepted)
  | Cancel rid =>
      if bool_decide (rid ∈ seen h)
      then ({| sessions := alter request_cancel rid (sessions h);
               seen := seen h; wire := wire h; is_serving := is_serving h |},
            Acknowledged)
      else (h, Rejected NotFound)
  | Health => (h, HealthReport (health h))
  | Work rid e =>
      match sessions h !! rid with
      | Some s =>
          let '(s', out) := session_step s e in
          ({| sessions := <[rid := s']> (sessions h);
              seen := seen h; wire := wire h ++ out;
              is_serving := is_serving h |}, NoReply)
      | None => (h, NoReply)
      end
  | Destroy rid =>
      match sessions h !! rid with
      | Some s =>
          if is_terminal (state s)
          then ({| sessions := delete rid (sessions h);
                   seen := seen h; wire := wire h;
                   is_serving := is_serving h |}, NoReply)
          else (h, NoReply)
      | None => (h, NoReply)
      end
  end.

(** Modelled from the spec: the missing handler taking calls one after
    another, in any interleaving of clients and work functions. *)
Definition run (h : Handler) (calls : list Call) : Handler :=
  fold_left (fun h c => (handle h c).1) calls h.

(** Modelled from the spec: the request ids of the Invoke calls; the data
    model has callers generate an id unique per session. *)
Fixpoint invoked (calls : list Call) : list string :=
  match calls with
  | [] => []
  | Invoke req _ :: rest => request_id req :: invoked rest
  | _ :: rest => invoked rest
  end.

(** ** Reading a response stream *)

(** Modelled from the spec: the correlation key of a message of the missing
    schema. *)
Definition message_request_id (m : Message) : string :=
  match m with
  | Chunk c => chunk_request_id c
  | Terminal ts => status_request_id ts
  end.

(** Modelled from the spec: the messages a client observes for one request
    id, in order. *)
Definition stream_of (rid : string) (w : list Message) : list Message :=
  filter (fun m => message_request_id m = rid) w.


(** Modelled from the spec: the terminal statuses of a stream, in order. *)
Fixpoint terminals (w : list Message) : list TerminalStatus :=
  match w with
  | [] => []
  | Chunk _ :: rest => terminals rest
  | Terminal ts :: rest => ts :: terminals rest
  end.

(** Modelled from the spec: the chunks of one session numbered from [n]
    on, as the missing state machine emits them for the given data. *)
Fixpoint chunks_from (rid : string) (n : nat) (datas : list string)
    : list Message :=
  match datas with
  | [] => []
  | d :: rest =>
      Chunk {| chunk_request_id := rid; sequence_number := n; data := d |}
      :: chunks_from rid (S n) rest
  end.

(** Modelled from the spec: the session of [rid] has reached a terminal
    state in the missing handler; it is still in the table in that state, or
    it has been destroyed since. *)
Definition finished (h : Handler) (rid : string) : Prop :=
  rid ∈ seen h ∧ ∀ s, sessions h !! rid = Some s -> is_terminal (state s) = true.

(** Modelled from the spec: the invariant that ties the stream of a request
    id to its Session in the missing handler: as many chunks as the
    sequence number counts, numbered from 0, followed by one terminal status
    exactly when the session is terminal or destroyed; nothing for an id
    never admitted. *)
Definition stream_invariant (h : Handler) (rid : string) : Prop :=
  match sessions h !! rid with
  | Some s =>
      session_request_id s = rid ∧ rid ∈ seen h ∧
      ∃ datas, List.length datas = next_sequence_number s ∧
        if is_terminal (state s)
        then ∃ ts, status_request_id ts = rid
               ∧ stream_of rid (wire h) = chunks_from rid 0 datas ++ [Terminal ts]
        else stream_of rid (wire h) = chunks_from rid 0 datas
  | None =>
      if bool_decide (rid ∈ seen h)
      then ∃ datas ts, status_request_id ts = rid
             ∧ stream_of rid (wire h) = chunks_from rid 0 datas ++ [Terminal ts]
      else stream_of rid (wire h) = []
  end.

(** Modelled from the spec: the first scenario of section 8 as calls to the
    missing handler: request r1 is admitted, the agent emits two chunks and
    ends normally. *)
Definition scenario_r1 : list Call :=
  [ Invoke {| request_id := "r1"; payload := "task"; deadline := None |} 0;
    Work "r1" (Yielded "partial");
    Work "r1" (Yielded "more");
    Work "r1" (Finished "done") ].

(* ===================================================================== *)
(** * Theorems                                                           *)
(* ===================================================================== *)

(** ** publish.py *)

Section PublishProofs.
Context `{Sys : System}.


(** Symbolic execution of [main]: one case per way the host and the user
    can behave.  The goal has the shape [main w = r -> _]. *)
Ltac script_norm :=
  cbv beta iota zeta delta
    [main run_command try_except_CalledProcessError subprocess_run bind when
     print ret sys_exit input os_path_exists host stdin negb app].

Ltac script_step :=
  match goal with
  | |- context [shell ?c ?h] =>
      let p := fresh "p" in let h' := fresh "h" in
      destruct (shell c h) as [p h'] eqn:?
  | |- context [(returncode ?p =? 0)%Z] =>
      destruct (returncode p =? 0)%Z eqn:?
  | |- context [path_exists ?f ?h] =>
      destruct (path_exists f h) eqn:?
  | |- context [String.eqb (lower ?r) "y"] =>
      destruct (String.eqb (lower r) "y") eqn:?
  | |- context [match ?inp with [] => _ | _ :: _ => _ end] =>
      is_var inp; destruct inp
  end.

Ltac script_exec :=
  script_norm; repeat (script_step; script_norm); intros <-.



Lemma uploads_follow_build_at built t pre c p post :
  uploads_follow_build built t ->
  t = pre ++ ERun c p :: post ->
  is_upload c = true ->
  built = true ∨ ∃ pb, In (ERun build_cmd pb) pre ∧ returncode pb = 0.
Proof.
  revert built t. induction pre as [|e pre IH]; intros built t Ht -> Hup;
    cbn in Ht.
  - left. apply Ht, Hup.
  - destruct e as [l|q r|c' p'];
      [destruct (IH _ _ Ht eq_refl Hup) as [?|(pb & ? & ?)];
         [by left | right; exists pb; split; [by right | done]] ..|].
    destruct Ht as [_ Ht].
    destruct (IH _ _ Ht eq_refl Hup) as [Hb|(pb & ? & ?)].
    + apply orb_true_iff in Hb as [?|Hb]; [by left|].
      apply andb_true_iff in Hb as [Hc Hz].
      apply String.eqb_eq in Hc as ->. apply Z.eqb_eq in Hz.
      right. exists p'. split; [by left | done].
    + right. exists pb. split; [by right | done].
Qed.

Lemma main_uploads_follow_build (w : world) r :
  main w = r -> uploads_follow_build false r.2.
Proof.
  destruct w as [h inp]. script_exec.
  all: cbn [snd uploads_follow_build].
  all: repeat match goal with
         | H : (returncode ?p =? 0)%Z = _ |- _ => rewrite H; clear H
         end.
  all: vm_compute; repeat split; congruence.
Qed.

Lemma ran_In (c : string) (t : list Event) :
  ran c t = true ↔ ∃ p, In (ERun c p) t.
Proof.
  induction t as [|e t IH]; cbn.
  - split; [discriminate | intros [? []]].
  - destruct e as [l|q r|c' p'].
    1,2: rewrite IH; split; intros [p Hp]; exists p;
         [by right | by destruct Hp as [?|?]].
    rewrite orb_true_iff, IH, String.eqb_eq. split.
    + intros [->|[p Hp]]; [exists p'; by left | exists p; by right].
    + intros [p [[= -> ->]|Hp]]; [by left | right; by exists p].
Qed.

Lemma responses_In (q r : string) (t : list Event) :
  In r (responses q t) ↔ In (EInput q (Some r)) t.
Proof.
  induction t as [|e t IH]; cbn; [done|].
  destruct e as [l|q' [r'|]|c' p']; cbn.
  1,3,4: rewrite IH; split; [by right | by intros [?|?]].
  destruct (String.eqb_spec q' q) as [->|Hne]; cbn; rewrite IH.
  - split; (intros [?|?]; [left; congruence | by right]).
  - split; [by right | intros [?|?]; [congruence | done]].
Qed.

(** What [lower] accepts as a yes: the letter y in either case. *)
Lemma lower_is_y (r : string) : lower r = "y" ↔ r = "y" ∨ r = "Y".
Proof.
  split.
  - destruct r as [|c [|c' r]]; cbn; try discriminate.
    intros [= H]. revert H.
    destruct c as [[] [] [] [] [] [] [] []]; vm_compute; intros; try discriminate; auto.
  - by intros [->| ->].
Qed.

Lemma main_follows_answers (w : world) r :
  main w = r ->
  (∀ a, In a (responses pypi_prompt r.2) ->
     (ran pypi_upload_cmd r.2 = true ↔ lower a = "y")
     ∧ (lower a ≠ "y" ->
        r.1.1 = Returned tt
        ∧ In (EPrint "⏸️  Skipped production upload") r.2
        ∧ last r.2 = Some (EPrint "✅ Done!")))
  ∧ (∀ a, In a (responses testpypi_prompt r.2) ->
     (ran testpypi_upload_cmd r.2 = true ↔ lower a = "y")
     ∧ (lower a ≠ "y" ->
        ran test_install_cmd r.2 = false
        ∧ ∃ resp, In (EInput pypi_prompt resp) r.2))
  ∧ (∀ a, In a (responses test_install_prompt r.2) ->
     (ran test_install_cmd r.2 = true ↔ lower a = "y")
     ∧ (lower a ≠ "y" -> ∃ resp, In (EInput pypi_prompt resp) r.2)).
Proof.
  destruct w as [h inp]. script_exec.
  all: cbn [fst snd].
  all: cbn [responses ran last String.eqb Ascii.eqb Bool.eqb orb andb
            pypi_prompt testpypi_prompt test_install_prompt
            pypi_upload_cmd testpypi_upload_cmd test_install_cmd
            clean_cmd build_cmd check_cmd].
  all: repeat match goal with
         | H : String.eqb _ _ = true |- _ => apply String.eqb_eq in H
         | H : String.eqb _ _ = false |- _ => apply String.eqb_neq in H
         end.
  all: split; [|split]; intros a Ha; cbn [In] in Ha;
       (destruct Ha as [<-|[]] || destruct Ha).
  all: split; [split; intros; congruence|].
  all: intros Hn; try contradiction.
  all: repeat split; try reflexivity.
  all: try eexists.
  all: cbn [In]; repeat (first [left; reflexivity | right]).
Qed.

(** C8. Without [setup.py] in the working directory [main] prints its
    banner and the complaint and leaves through [sys.exit(1)]: the host is
    the one it started from, no command reached the shell, and no line of
    input was read. *)
Theorem main_without_setup_py (w : world) :
  path_exists "setup.py" (host w) = false ->
  main w =
    (SystemExit 1, w,
     [EPrint "🚀 Publishing AnyAgent Framework to PyPI";
      EPrint "❌ setup.py not found. Run this from the project root."])
  ∧ exit_status (main w).1.1 = 1
  ∧ host (main w).1.2 = host w
  ∧ commands (main w).2 = [].
Proof.
  intros Hno.
  assert (Hrun : main w =
    (SystemExit 1, w,
     [EPrint "🚀 Publishing AnyAgent Framework to PyPI";
      EPrint "❌ setup.py not found. Run this from the project root."])).
  { unfold main, bind, when, print, os_path_exists, sys_exit.
    cbn. rewrite Hno. reflexivity. }
  rewrite Hrun. repeat split.
Qed.


(** C3. In a run of [main], a command that uploads the distribution (to
    TestPyPI or to PyPI) reaches the shell only after the build command of
    this same run has exited with status 0. *)
Theorem upload_only_after_build (w : world) o w' t pre cmd p post :
  main w = (o, w', t) ->
  t = pre ++ ERun cmd p :: post ->
  cmd = testpypi_upload_cmd ∨ cmd = pypi_upload_cmd ->
  ∃ pb, In (ERun build_cmd pb) pre ∧ returncode pb = 0.
Proof.
  intros Hrun Ht Hup.
  pose proof (main_uploads_follow_build w _ Hrun) as Hd. cbn [snd] in Hd.
  assert (Hu : is_upload cmd = true).
  { unfold is_upload. apply orb_true_iff.
    destruct Hup as [-> | ->]; [left | right]; apply String.eqb_refl. }
  destruct (uploads_follow_build_at _ _ _ _ _ _ Hd Ht Hu) as [?|?]; done.
Qed.

(** C9. In a run of [main], the command that uploads to production PyPI
    reaches the shell exactly when the answer typed at the production
    prompt, lowered, is ["y"]; after any other answer the upload is
    skipped, [main] returns normally, and the last line printed is the done
    message.  Likewise the TestPyPI upload runs exactly when the answer at
    its prompt lowers to ["y"], and the test install exactly when the
    answer at its prompt does; after any other answer the step is skipped
    and the script goes on to the production prompt. *)
Theorem uploads_follow_answers (w : world) o w' t :
  main w = (o, w', t) ->
  (∀ r, In (EInput pypi_prompt (Some r)) t ->
     ((∃ p, In (ERun pypi_upload_cmd p) t) ↔ lower r = "y")
     ∧ (lower r ≠ "y" ->
        o = Returned tt
        ∧ In (EPrint "⏸️  Skipped production upload") t
        ∧ last t = Some (EPrint "✅ Done!")))
  ∧ (∀ r, In (EInput testpypi_prompt (Some r)) t ->
     ((∃ p, In (ERun testpypi_upload_cmd p) t) ↔ lower r = "y")
     ∧ (lower r ≠ "y" ->
        (¬ ∃ p, In (ERun test_install_cmd p) t)
        ∧ ∃ resp, In (EInput pypi_prompt resp) t))
  ∧ (∀ r, In (EInput test_install_prompt (Some r)) t ->
     ((∃ p, In (ERun test_install_cmd p) t) ↔ lower r = "y")
     ∧ (lower r ≠ "y" -> ∃ resp, In (EInput pypi_prompt resp) t)).
Proof.
  intros Hrun.
  destruct (main_follows_answers w _ Hrun) as (Hp & Ht & Hi).
  cbn [fst snd] in Hp, Ht, Hi.
  split; [|split]; intros r Hr; apply responses_In in Hr.
  - destruct (Hp r Hr) as [Hiff Hskip]. by rewrite <- ran_In.
  - destruct (Ht r Hr) as [Hiff Hskip]. rewrite <- !ran_In.
    split; [done|]. intros Hn. destruct (Hskip Hn) as [Hno Hnext].
    split; [congruence | done].
  - destruct (Hi r Hr) as [Hiff Hskip]. by rewrite <- ran_In.
Qed.

(** *** Further properties of [main] *)

Lemma main_command_order (w : world) r :
  main w = r ->
  sublist (map fst (commands r.2)) script_order
  ∧ (map fst (commands r.2) `prefix_of` [clean_cmd; build_cmd; check_cmd]
     ∨ [clean_cmd; build_cmd; check_cmd] `prefix_of` map fst (commands r.2)).
Proof.
  destruct w as [h inp]. script_exec.
  all: cbn [snd commands map fst]; unfold script_order.
  all: split; [repeat constructor|].
  all: first [left; eexists; reflexivity | right; eexists; reflexivity].
Qed.

Lemma main_needs_met (w : world) r : main w = r -> needs_met [] r.2.
Proof.
  destruct w as [h inp]. script_exec.
  all: cbn [snd needs_met succeeded].
  all: repeat match goal with
         | H : (returncode ?p =? 0)%Z = _ |- _ => rewrite H; clear H
         end.
  all: vm_compute; repeat split.
Qed.

Lemma needs_met_at done t pre e post d :
  needs_met done t ->
  t = pre ++ e :: post ->
  In d (prerequisites e) ->
  In d done ∨ ∃ pd, In (ERun d pd) pre ∧ returncode pd = 0.
Proof.
  revert done t. induction pre as [|x pre IH]; intros done t Ht -> Hd; cbn in Ht.
  - left. destruct Ht as [Hall _]. unfold all_in in Hall.
    rewrite forallb_forall in Hall. specialize (Hall d Hd).
    apply existsb_exists in Hall as (y & Hy & Heq).
    apply String.eqb_eq in Heq. by subst y.
  - destruct Ht as [_ Ht]. destruct (IH _ _ Ht eq_refl Hd) as [Hin|(pd & ? & ?)].
    + apply in_app_or in Hin as [Hin|Hin]; [|by left].
      right. destruct x as [l|q r|c p]; cbn in Hin; try done.
      destruct (Z.eqb_spec (returncode p) 0) as [Hz|]; [|done].
      destruct Hin as [<-|[]]. exists p. split; [by left | done].
    + right. exists pd. split; [by right | done].
Qed.



Lemma main_without_input (w : world) r :
  main w = r ->
  stdin w = [] ->
  r.1.1 ≠ Returned tt
  ∧ ran testpypi_upload_cmd r.2 = false
  ∧ ran test_install_cmd r.2 = false
  ∧ ran pypi_upload_cmd r.2 = false.
Proof.
  destruct w as [h inp]. script_exec.
  all: cbn [fst snd]; intros Hin; try discriminate Hin.
  all: split; [discriminate|]; vm_compute; repeat split.
Qed.



Lemma main_replays_shell (w : world) r :
  main w = r ->
  shell_seq (map fst (commands r.2)) (host w) = (map snd (commands r.2), host r.1.2).
Proof.
  destruct w as [h inp]. script_exec.
  all: cbn [fst snd commands map shell_seq host].
  all: repeat match goal with
         | H : shell ?c ?m = _ |- context [shell ?c ?m] =>
             rewrite H; cbn [shell_seq]
         end.
  all: reflexivity.
Qed.



(** X1. The commands [main] hands to the shell are taken from the six of
    the script, in the order of the script and each at most once; the
    cleaning, the build and the check come first: either the run stopped
    within them, or all three ran before anything else. *)
Theorem commands_follow_script_order (w : world) o w' t :
  main w = (o, w', t) ->
  sublist (map fst (commands t)) script_order
  ∧ (map fst (commands t) `prefix_of` [clean_cmd; build_cmd; check_cmd]
     ∨ [clean_cmd; build_cmd; check_cmd] `prefix_of` map fst (commands t)).
Proof. intros Hrun. exact (main_command_order w _ Hrun). Qed.

(** X2. A command reaches the shell only after every command the script
    places before it on its path has exited with status 0: the build after
    the cleaning, the check after the build, an upload after the check, the
    test install after the upload to TestPyPI. *)
Theorem command_needs_earlier_successes (w : world) o w' t pre cmd p post d :
  main w = (o, w', t) ->
  t = pre ++ ERun cmd p :: post ->
  In d (prerequisites (ERun cmd p)) ->
  ∃ pd, In (ERun d pd) pre ∧ returncode pd = 0.
Proof.
  intros Hrun Ht Hd.
  pose proof (main_needs_met w _ Hrun) as Hm. cbn [snd] in Hm.
  destruct (needs_met_at _ _ _ _ _ _ Hm Ht Hd) as [[]|?]; done.
Qed.

(** X3. The user is asked about an upload only after the cleaning, the
    build and the check have all exited with status 0, and about the test
    install only after the upload to TestPyPI has, too. *)
Theorem prompt_needs_earlier_successes (w : world) o w' t pre q resp post d :
  main w = (o, w', t) ->
  t = pre ++ EInput q resp :: post ->
  In d (prerequisites (EInput q resp)) ->
  ∃ pd, In (ERun d pd) pre ∧ returncode pd = 0.
Proof.
  intros Hrun Ht Hd.
  pose proof (main_needs_met w _ Hrun) as Hm. cbn [snd] in Hm.
  destruct (needs_met_at _ _ _ _ _ _ Hm Ht Hd) as [[]|?]; done.
Qed.



(** X6. With nothing on standard input [main] cannot return normally, and
    neither upload nor the test install reaches the shell. *)
Theorem nothing_uploaded_without_input (w : world) o w' t :
  main w = (o, w', t) ->
  stdin w = [] ->
  o ≠ Returned tt
  ∧ ¬ (∃ p, In (ERun testpypi_upload_cmd p) t)
  ∧ ¬ (∃ p, In (ERun test_install_cmd p) t)
  ∧ ¬ (∃ p, In (ERun pypi_upload_cmd p) t).
Proof.
  intros Hrun Hin.
  destruct (main_without_input w _ Hrun Hin) as (Ho & H1 & H2 & H3).
  cbn [fst snd] in *. rewrite <- !ran_In.
  split; [done|]. repeat split; congruence.
Qed.



(** X9. [main] changes the host through its commands alone: running the
    logged commands one after another from the initial host gives the
    logged results and the final host. *)
Theorem host_changes_only_through_shell (w : world) o w' t :
  main w = (o, w', t) ->
  shell_seq (map fst (commands t)) (host w) = (map snd (commands t), host w').
Proof. intros Hrun. exact (main_replays_shell w _ Hrun). Qed.

(** X10. An answer counts as yes only if it is the single letter y or Y:
    each guarded command runs exactly when the answer at its prompt is one
    of these two. *)
Theorem only_y_is_yes (w : world) o w' t r :
  main w = (o, w', t) ->
  (In (EInput pypi_prompt (Some r)) t ->
     (∃ p, In (ERun pypi_upload_cmd p) t) ↔ r = "y" ∨ r = "Y")
  ∧ (In (EInput testpypi_prompt (Some r)) t ->
     (∃ p, In (ERun testpypi_upload_cmd p) t) ↔ r = "y" ∨ r = "Y")
  ∧ (In (EInput test_install_prompt (Some r)) t ->
     (∃ p, In (ERun test_install_cmd p) t) ↔ r = "y" ∨ r = "Y").
Proof.
  intros Hrun.
  destruct (main_follows_answers w _ Hrun) as (Hp & Ht & Hi).
  cbn [fst snd] in *. rewrite <- !ran_In, <- !responses_In, <- lower_is_y.
  split; [|split]; intros Hr.
  - by destruct (Hp r Hr).
  - by destruct (Ht r Hr).
  - by destruct (Hi r Hr).
Qed.

End PublishProofs.

(** *** Runs on the toy host *)

(** The user declines both uploads; the build replaces the old [dist]. *)
Example toy_run_declined :
  toy_main [] ["setup.py"; "dist"] ["n"; "N"]
  = (Returned tt,
     toy_world [] ["build"; "dist"; "setup.py"] [],
     [EPrint "🚀 Publishing AnyAgent Framework to PyPI";
      EPrint "🔄 Cleaning previous builds...";
      ERun clean_cmd {| returncode := 0; stdout := ""; stderr := "" |};
      EPrint "✅ Cleaning previous builds completed";
      EPrint "🔄 Building package...";
      ERun build_cmd {| returncode := 0; stdout := "built"; stderr := "" |};
      EPrint "✅ Building package completed";
      EPrint "🔄 Checking package...";
      ERun check_cmd {| returncode := 0; stdout := ""; stderr := "" |};
      EPrint "✅ Checking package completed";
      EInput testpypi_prompt (Some "n");
      EInput pypi_prompt (Some "N");
      EPrint "⏸️  Skipped production upload";
      EPrint "✅ Done!"]).
Proof. vm_compute. reflexivity. Qed.

(** The build fails: the report is printed and nothing runs after it. *)
Example toy_run_build_fails :
  toy_main [build_cmd] ["setup.py"; "dist"] ["y"; "y"; "y"]
  = (SystemExit 1,
     toy_world [build_cmd] ["setup.py"] ["y"; "y"; "y"],
     [EPrint "🚀 Publishing AnyAgent Framework to PyPI";
      EPrint "🔄 Cleaning previous builds...";
      ERun clean_cmd {| returncode := 0; stdout := ""; stderr := "" |};
      EPrint "✅ Cleaning previous builds completed";
      EPrint "🔄 Building package...";
      ERun build_cmd {| returncode := 1; stdout := ""; stderr := "boom" |};
      EPrint "❌ Building package failed:";
      EPrint "Error: boom"]).
Proof. vm_compute. reflexivity. Qed.

(** Standard input ends at the first prompt: [EOFError] is not caught. *)
Example toy_run_end_of_input :
  (toy_main [] ["setup.py"] []).1.1 = Raised EOFError
  ∧ exit_status (toy_main [] ["setup.py"] []).1.1 = 1.
Proof. vm_compute. split; reflexivity. Qed.

Lemma main_without_setup_py_witness :
  @path_exists (toy_system []) "setup.py" ["dist"; "build"] = false
  ∧ toy_main [] ["dist"; "build"] ["y"; "y"; "y"]
    = (SystemExit 1, toy_world [] ["dist"; "build"] ["y"; "y"; "y"],
       [EPrint "🚀 Publishing AnyAgent Framework to PyPI";
        EPrint "❌ setup.py not found. Run this from the project root."]).
Proof.
  assert (Hno : @path_exists (toy_system []) "setup.py"
                  (host (toy_world [] ["dist"; "build"] ["y"; "y"; "y"])) = false)
    by (vm_compute; reflexivity).
  split; [exact Hno|].
  exact (proj1 (@main_without_setup_py (toy_system []) _ Hno)).
Defined.


Lemma upload_only_after_build_witness :
  ∃ o w' t pre p post,
    toy_main [] ["setup.py"] ["y"; "n"; "y"] = (o, w', t)
    ∧ t = pre ++ ERun pypi_upload_cmd p :: post
    ∧ ∃ pb, In (ERun build_cmd pb) pre ∧ returncode pb = 0.
Proof.
  set (r := toy_main [] ["setup.py"] ["y"; "n"; "y"]).
  set (p := {| returncode := 0; stdout := ""; stderr := "" |}).
  assert (Hrun : r = (r.1.1, r.1.2, r.2)) by (vm_compute; reflexivity).
  assert (Ht : r.2 = firstn 20 r.2 ++ ERun pypi_upload_cmd p :: skipn 21 r.2)
    by (vm_compute; reflexivity).
  exists r.1.1, r.1.2, r.2, (firstn 20 r.2), p, (skipn 21 r.2).
  split; [exact Hrun|]. split; [exact Ht|].
  exact (@upload_only_after_build (toy_system []) _ _ _ _ _ _ _ _
           Hrun Ht (or_intror eq_refl)).
Defined.

Lemma uploads_follow_answers_witness :
  ∃ o w' t,
    toy_main [] ["setup.py"] ["n"; "no"] = (o, w', t)
    ∧ In (EInput pypi_prompt (Some "no")) t
    ∧ ((∃ p, In (ERun pypi_upload_cmd p) t) ↔ lower "no" = "y")
    ∧ (lower "no" ≠ "y" ->
       o = Returned tt
       ∧ In (EPrint "⏸️  Skipped production upload") t
       ∧ last t = Some (EPrint "✅ Done!")).
Proof.
  set (r := toy_main [] ["setup.py"] ["n"; "no"]).
  assert (Hrun : r = (r.1.1, r.1.2, r.2)) by (vm_compute; reflexivity).
  assert (Hin : In (EInput pypi_prompt (Some "no")) r.2)
    by (vm_compute; do 11 right; left; reflexivity).
  exists r.1.1, r.1.2, r.2.
  split; [exact Hrun|]. split; [exact Hin|].
  exact (proj1 (@uploads_follow_answers (toy_system []) _ _ _ _ Hrun) "no" Hin).
Defined.

(** ** anyagent/proto/__init__.py *)

Section ProtoProofs.
Variable finder : string -> option (gmap string pyval).

Lemma store_name_insert (pkg name : string) (v : pyval) (sys : modules) ns :
  sys !! pkg = Some ns ->
  store_name pkg name v sys = <[pkg := <[name := v]> ns]> sys.
Proof.
  intros Hpkg. unfold store_name. apply map_eq. intros k.
  destruct (decide (k = pkg)) as [->|Hk].
  - by rewrite lookup_alter_eq, Hpkg, lookup_insert_eq.
  - by rewrite lookup_alter_ne, lookup_insert_ne.
Qed.

Lemma importable_loaded_or_found q sys :
  importable finder q sys ↔ is_Some (loaded_or_found finder q sys).
Proof.
  unfold importable, loaded_or_found. destruct (sys !! q) as [m|].
  - split; [by eauto | by left].
  - split; [intros [[? [=]]|?]; done | by right].
Qed.

(** [from . import name] when the package does not have the attribute yet:
    three ways, by where the submodule is. *)
Lemma from_import_run (pkg name : string) (sys : modules) ns :
  sys !! pkg = Some ns ->
  ns !! name = None ->
  pkg ≠ submodule_name pkg name ->
  from_import finder pkg name sys =
    match sys !! submodule_name pkg name, finder (submodule_name pkg name) with
    | Some _, _ =>
        Normal (<[pkg := <[name := VModule (submodule_name pkg name)]> ns]> sys)
    | None, Some m =>
        Normal (<[pkg := <[name := VModule (submodule_name pkg name)]> ns]>
                  (<[submodule_name pkg name := m]> sys))
    | None, None => Raise (ImportError name pkg) sys
    end.
Proof.
  intros Hpkg Hname Hne. unfold from_import, import_submodule.
  rewrite Hpkg. cbn [default from_option id]. rewrite Hname.
  destruct (sys !! submodule_name pkg name) as [m|] eqn:Hq.
  - rewrite Hpkg. cbn [default from_option id]. rewrite Hname, Hq.
    by rewrite (store_name_insert _ _ _ _ _ Hpkg).
  - destruct (finder (submodule_name pkg name)) as [m|] eqn:Hf.
    + assert (Hpkg' : <[submodule_name pkg name := m]> sys !! pkg = Some ns)
        by by rewrite lookup_insert_ne.
      rewrite (store_name_insert _ _ _ _ _ Hpkg'), lookup_insert_eq.
      cbn [default from_option id]. rewrite lookup_insert_eq.
      erewrite store_name_insert by apply lookup_insert_eq.
      by rewrite !insert_insert_eq.
    + rewrite Hpkg. cbn [default from_option id]. by rewrite Hname, Hq.
Qed.

Lemma from_import_ok (pkg name : string) (sys : modules) ns :
  sys !! pkg = Some ns ->
  ns !! name = None ->
  pkg ≠ submodule_name pkg name ->
  importable finder (submodule_name pkg name) sys ->
  ∃ sys', from_import finder pkg name sys = Normal sys'
    ∧ sys' !! pkg = Some (<[name := VModule (submodule_name pkg name)]> ns)
    ∧ sys' !! submodule_name pkg name
      = loaded_or_found finder (submodule_name pkg name) sys
    ∧ ∀ k, k ≠ pkg -> k ≠ submodule_name pkg name -> sys' !! k = sys !! k.
Proof.
  intros Hpkg Hname Hne Himp.
  rewrite (from_import_run pkg name sys ns Hpkg Hname Hne).
  apply importable_loaded_or_found in Himp. unfold loaded_or_found in *.
  destruct (sys !! submodule_name pkg name) as [m|] eqn:Hq.
  - eexists. split; [done|]. split; [by rewrite lookup_insert_eq|].
    split; [by rewrite lookup_insert_ne|].
    intros k Hk _. by rewrite lookup_insert_ne.
  - destruct (finder (submodule_name pkg name)) as [m|]; [|by destruct Himp].
    eexists. split; [done|]. split; [by rewrite lookup_insert_eq|].
    split; [by rewrite lookup_insert_ne, lookup_insert_eq|].
    intros k Hk Hk'. by rewrite !lookup_insert_ne.
Qed.

Lemma from_import_missing (pkg name : string) (sys : modules) ns :
  sys !! pkg = Some ns ->
  ns !! name = None ->
  pkg ≠ submodule_name pkg name ->
  ¬ importable finder (submodule_name pkg name) sys ->
  from_import finder pkg name sys = Raise (ImportError name pkg) sys.
Proof.
  intros Hpkg Hname Hne Himp.
  rewrite (from_import_run pkg name sys ns Hpkg Hname Hne).
  unfold importable in Himp.
  destruct (sys !! submodule_name pkg name) as [m|]; [destruct Himp; by left|].
  destruct (finder (submodule_name pkg name)) as [m|]; [destruct Himp; by right|].
  done.
Qed.

(** The namespace of the package once its body has run to the end. *)
Lemma import_proto_cases (sys : modules) :
  sys !! proto_pkg = None ->
  (importable finder agent_pb2_module sys
   ∧ importable finder agent_pb2_grpc_module sys
   ∧ ∃ sys', import_proto finder sys = Normal sys'
       ∧ sys' !! proto_pkg =
           Some (<["__all__" := VList [VStr "agent_pb2"; VStr "agent_pb2_grpc"]]>
                 (<["agent_pb2_grpc" := VModule agent_pb2_grpc_module]>
                  (<["agent_pb2" := VModule agent_pb2_module]>
                   (<["__doc__" := VStr proto_doc]> (initial_namespace proto_pkg)))))
       ∧ sys' !! agent_pb2_module = loaded_or_found finder agent_pb2_module sys
       ∧ sys' !! agent_pb2_grpc_module
         = loaded_or_found finder agent_pb2_grpc_module sys)
  ∨ (¬ (importable finder agent_pb2_module sys
        ∧ importable finder agent_pb2_grpc_module sys)
     ∧ ∃ name sys', import_proto finder sys = Raise (ImportError name proto_pkg) sys'
         ∧ (name = "agent_pb2" ∨ name = "agent_pb2_grpc")
         ∧ sys' !! proto_pkg = None).
Proof.
  intros Hnew. unfold import_proto, import_package. rewrite Hnew.
  cbn [exec_body proto_init exec_stmt].
  set (sys0 := <[proto_pkg := initial_namespace proto_pkg]> sys).
  assert (H0 : sys0 !! proto_pkg = Some (initial_namespace proto_pkg))
    by apply lookup_insert_eq.
  rewrite (store_name_insert _ _ _ _ _ H0).
  match goal with
  | |- context [from_import _ _ "agent_pb2" ?s] => set (sysD := s)
  end.
  assert (HD : sysD !! proto_pkg
               = Some (<["__doc__" := VStr proto_doc]> (initial_namespace proto_pkg)))
    by apply lookup_insert_eq.
  assert (HDk : ∀ k, k ≠ proto_pkg -> sysD !! k = sys !! k).
  { intros k Hk. subst sysD sys0. by rewrite !lookup_insert_ne. }
  assert (Hi1 : importable finder agent_pb2_module sysD
                ↔ importable finder agent_pb2_module sys).
  { unfold importable. by rewrite HDk. }
  destruct (decide (is_Some (loaded_or_found finder agent_pb2_module sys)))
    as [Ha|Ha]; rewrite <- importable_loaded_or_found in Ha.
  2: { right. split; [tauto|].
       rewrite (from_import_missing proto_pkg "agent_pb2" sysD _ HD);
         [|done|done|tauto].
       exists "agent_pb2". eexists. split; [done|]. split; [by left|].
       apply lookup_delete_eq. }
  destruct (from_import_ok proto_pkg "agent_pb2" sysD _ HD)
    as (sysA & -> & HA & HAq & HAk); [done|done|tauto|].
  change (submodule_name proto_pkg "agent_pb2") with agent_pb2_module in *.
  assert (Hi2 : importable finder agent_pb2_grpc_module sysA
                ↔ importable finder agent_pb2_grpc_module sys).
  { unfold importable. by rewrite HAk, HDk. }
  destruct (decide (is_Some (loaded_or_found finder agent_pb2_grpc_module sys)))
    as [Hb|Hb]; rewrite <- importable_loaded_or_found in Hb.
  2: { right. split; [tauto|].
       rewrite (from_import_missing proto_pkg "agent_pb2_grpc" sysA _ HA);
         [|done|done|tauto].
       exists "agent_pb2_grpc". eexists. split; [done|]. split; [by right|].
       apply lookup_delete_eq. }
  destruct (from_import_ok proto_pkg "agent_pb2_grpc" sysA _ HA)
    as (sysB & -> & HB & HBq & HBk); [done|done|tauto|].
  change (submodule_name proto_pkg "agent_pb2_grpc")
    with agent_pb2_grpc_module in *.
  left. split; [done|]. split; [done|].
  rewrite (store_name_insert _ _ _ _ _ HB).
  eexists. split; [done|]. split; [by rewrite lookup_insert_eq|].
  split.
  - rewrite lookup_insert_ne, HBk, HAq by done.
    unfold loaded_or_found. by rewrite HDk.
  - rewrite lookup_insert_ne, HBq by done.
    unfold loaded_or_found. rewrite HAk, HDk by done. done.
Qed.

(** C2. When both generated modules are importable, importing the package
    for the first time succeeds and leaves in [sys.modules] a package whose
    namespace binds [agent_pb2] and [agent_pb2_grpc] to the two modules
    (themselves registered under [anyagent.proto.]), whose [__all__] is the
    list of exactly these two names, whose star-import binds exactly these
    two names, and whose public names are these two and no other. *)
Theorem proto_reexports_two_modules (sys : modules) :
  sys !! proto_pkg = None ->
  importable finder agent_pb2_module sys ->
  importable finder agent_pb2_grpc_module sys ->
  ∃ sys' ns,
    import_proto finder sys = Normal sys'
    ∧ sys' !! proto_pkg = Some ns
    ∧ ns !! "agent_pb2" = Some (VModule agent_pb2_module)
    ∧ ns !! "agent_pb2_grpc" = Some (VModule agent_pb2_grpc_module)
    ∧ sys' !! agent_pb2_module = loaded_or_found finder agent_pb2_module sys
    ∧ sys' !! agent_pb2_grpc_module
      = loaded_or_found finder agent_pb2_grpc_module sys
    ∧ ns !! "__all__" = Some (VList [VStr "agent_pb2"; VStr "agent_pb2_grpc"])
    ∧ star_exports ns = ["agent_pb2"; "agent_pb2_grpc"]
    ∧ public_names ns = {[ "agent_pb2"; "agent_pb2_grpc" ]}.
Proof.
  intros Hnew H1 H2.
  destruct (import_proto_cases sys Hnew)
    as [(_ & _ & sys' & Hrun & Hns & Hq1 & Hq2) | [Hno _]]; [|tauto].
  exists sys'. eexists. split; [done|]. split; [exact Hns|].
  split; [done|]. split; [done|]. split; [done|]. split; [done|].
  split; [done|]. split; [done|].
  vm_cast_no_check (eq_refl (A := gset string) {[ "agent_pb2"; "agent_pb2_grpc" ]}).
Qed.

(** C10. Importing the package for the first time succeeds exactly when
    both generated modules are importable.  When one of them is missing the
    import raises [ImportError] naming the first missing module, and the
    package is not left in [sys.modules]: no importer gets a namespace with
    only part of the names. *)
Theorem proto_import_all_or_nothing (sys : modules) :
  sys !! proto_pkg = None ->
  ((∃ sys', import_proto finder sys = Normal sys')
   ↔ importable finder agent_pb2_module sys
     ∧ importable finder agent_pb2_grpc_module sys)
  ∧ (¬ (importable finder agent_pb2_module sys
        ∧ importable finder agent_pb2_grpc_module sys) ->
     ∃ name sys',
       import_proto finder sys = Raise (ImportError name proto_pkg) sys'
       ∧ (name = "agent_pb2" ∨ name = "agent_pb2_grpc")
       ∧ sys' !! proto_pkg = None).
Proof.
  intros Hnew.
  destruct (import_proto_cases sys Hnew)
    as [(H1 & H2 & sys' & Hrun & _) | (Hno & name & sys' & Hrun & Hname & Hgone)].
  - split; [|tauto]. split; [done | by exists sys'].
  - split.
    + split; [intros [sys'' Hok]; congruence | tauto].
    + intros _. by exists name, sys'.
Qed.

(** *** Further properties of the import *)

Lemma from_import_ok_eq (pkg name : string) (sys : modules) ns m :
  sys !! pkg = Some ns ->
  ns !! name = None ->
  pkg ≠ submodule_name pkg name ->
  loaded_or_found finder (submodule_name pkg name) sys = Some m ->
  from_import finder pkg name sys
  = Normal (<[pkg := <[name := VModule (submodule_name pkg name)]> ns]>
              (<[submodule_name pkg name := m]> sys)).
Proof.
  intros Hpkg Hname Hne Hm.
  rewrite (from_import_run pkg name sys ns Hpkg Hname Hne).
  unfold loaded_or_found in Hm.
  destruct (sys !! submodule_name pkg name) as [m'|] eqn:Hq.
  - injection Hm as ->. by rewrite (insert_id sys _ _ Hq).
  - by rewrite Hm.
Qed.

Lemma from_import_missing_eq (pkg name : string) (sys : modules) ns :
  sys !! pkg = Some ns ->
  ns !! name = None ->
  pkg ≠ submodule_name pkg name ->
  loaded_or_found finder (submodule_name pkg name) sys = None ->
  from_import finder pkg name sys = Raise (ImportError name pkg) sys.
Proof.
  intros Hpkg Hname Hne Hm.
  rewrite (from_import_run pkg name sys ns Hpkg Hname Hne).
  unfold loaded_or_found in Hm.
  destruct (sys !! submodule_name pkg name) as [m'|] eqn:Hq; [done|].
  by rewrite Hm.
Qed.

Lemma import_proto_run (sys : modules) :
  sys !! proto_pkg = None ->
  import_proto finder sys =
    match loaded_or_found finder agent_pb2_module sys with
    | None => Raise (ImportError "agent_pb2" proto_pkg) sys
    | Some m1 =>
        match loaded_or_found finder agent_pb2_grpc_module sys with
        | None =>
            Raise (ImportError "agent_pb2_grpc" proto_pkg)
              (<[agent_pb2_module := m1]> sys)
        | Some m2 =>
            Normal (<[proto_pkg := proto_namespace]>
                      (<[agent_pb2_grpc_module := m2]>
                         (<[agent_pb2_module := m1]> sys)))
        end
    end.
Proof.
  intros Hnew. unfold import_proto, import_package. rewrite Hnew.
  cbn [exec_body proto_init exec_stmt].
  erewrite store_name_insert by apply lookup_insert_eq.
  rewrite insert_insert_eq.
  set (nsD := <["__doc__" := VStr proto_doc]> (initial_namespace proto_pkg)).
  assert (Hq1 : loaded_or_found finder agent_pb2_module (<[proto_pkg := nsD]> sys)
                = loaded_or_found finder agent_pb2_module sys).
  { unfold loaded_or_found. by rewrite lookup_insert_ne. }
  destruct (loaded_or_found finder agent_pb2_module sys) as [m1|] eqn:H1.
  2: { erewrite (from_import_missing_eq proto_pkg "agent_pb2");
         [|apply lookup_insert_eq|done|done|exact Hq1].
       by rewrite delete_insert_eq, delete_id. }
  erewrite (from_import_ok_eq proto_pkg "agent_pb2");
    [|apply lookup_insert_eq|done|done|exact Hq1].
  change (submodule_name proto_pkg "agent_pb2") with agent_pb2_module.
  rewrite (insert_insert_ne _ agent_pb2_module proto_pkg) by done.
  rewrite insert_insert_eq.
  set (nsA := <["agent_pb2" := VModule agent_pb2_module]> nsD).
  set (sys1 := <[agent_pb2_module := m1]> sys).
  assert (Hq2 : loaded_or_found finder agent_pb2_grpc_module (<[proto_pkg := nsA]> sys1)
                = loaded_or_found finder agent_pb2_grpc_module sys).
  { unfold loaded_or_found, sys1. by rewrite !lookup_insert_ne. }
  destruct (loaded_or_found finder agent_pb2_grpc_module sys) as [m2|] eqn:H2.
  2: { erewrite (from_import_missing_eq proto_pkg "agent_pb2_grpc");
         [|apply lookup_insert_eq|done|done|exact Hq2].
       rewrite delete_insert_eq, delete_id; [done|].
       unfold sys1. by rewrite lookup_insert_ne. }
  erewrite (from_import_ok_eq proto_pkg "agent_pb2_grpc");
    [|apply lookup_insert_eq|done|done|exact Hq2].
  change (submodule_name proto_pkg "agent_pb2_grpc") with agent_pb2_grpc_module.
  rewrite (insert_insert_ne _ agent_pb2_grpc_module proto_pkg) by done.
  rewrite insert_insert_eq.
  erewrite store_name_insert by apply lookup_insert_eq.
  by rewrite insert_insert_eq.
Qed.





(** X14. Once the package is imported, importing it again changes nothing
    and cannot fail, whatever has become of the generated modules. *)
Theorem proto_import_twice (finder' : string -> option (gmap string pyval))
    (sys sys' : modules) :
  import_proto finder sys = Normal sys' ->
  import_proto finder' sys' = Normal sys'.
Proof.
  intros Hrun.
  assert (Hin : is_Some (sys' !! proto_pkg)).
  { destruct (sys !! proto_pkg) as [ns|] eqn:Hpkg.
    - unfold import_proto, import_package in Hrun. rewrite Hpkg in Hrun.
      injection Hrun as <-. by eexists.
    - rewrite (import_proto_run sys Hpkg) in Hrun.
      destruct (loaded_or_found finder agent_pb2_module sys); [|done].
      destruct (loaded_or_found finder agent_pb2_grpc_module sys); [|done].
      injection Hrun as <-. rewrite lookup_insert_eq. by eexists. }
  destruct Hin as [ns Hns].
  unfold import_proto, import_package. by rewrite Hns.
Qed.

(** X15. After a successful first import every name listed in [__all__] is
    public and bound, in the namespace of the package, to a module that is
    in [sys.modules]: a star-import finds all it asks for. *)
Theorem proto_exports_are_bound (sys sys' : modules) (name : string) :
  sys !! proto_pkg = None ->
  import_proto finder sys = Normal sys' ->
  ∃ ns, sys' !! proto_pkg = Some ns
    ∧ (In name (star_exports ns) ->
       is_public name = true
       ∧ ∃ q, ns !! name = Some (VModule q) ∧ is_Some (sys' !! q)).
Proof.
  intros Hnew Hrun. rewrite (import_proto_run sys Hnew) in Hrun.
  destruct (loaded_or_found finder agent_pb2_module sys) as [m1|]; [|done].
  destruct (loaded_or_found finder agent_pb2_grpc_module sys) as [m2|]; [|done].
  injection Hrun as <-. exists proto_namespace.
  split; [by rewrite lookup_insert_eq|].
  change (star_exports proto_namespace) with ["agent_pb2"; "agent_pb2_grpc"].
  intros [<-|[<-|[]]]; (split; [done|]).
  - exists agent_pb2_module. split; [done|].
    rewrite !lookup_insert_ne, lookup_insert_eq by done. by eexists.
  - exists agent_pb2_grpc_module. split; [done|].
    rewrite lookup_insert_ne, lookup_insert_eq by done. by eexists.
Qed.

End ProtoProofs.

(** *** Imports with the toy finder *)

Example toy_import_grpc_missing :
  ∃ sys', import_proto (toy_finder [agent_pb2_module]) ∅
            = Raise (ImportError "agent_pb2_grpc" proto_pkg) sys'
          ∧ sys' !! proto_pkg = None
          ∧ sys' !! agent_pb2_module = Some ∅.
Proof. eexists. split; [vm_compute; reflexivity|]. split; reflexivity. Qed.

Lemma proto_reexports_two_modules_witness :
  let finder := toy_finder [agent_pb2_module; agent_pb2_grpc_module] in
  (∅ : modules) !! proto_pkg = None
  ∧ importable finder agent_pb2_module ∅
  ∧ importable finder agent_pb2_grpc_module ∅
  ∧ ∃ sys' ns,
      import_proto finder ∅ = Normal sys'
      ∧ sys' !! proto_pkg = Some ns
      ∧ ns !! "__all__" = Some (VList [VStr "agent_pb2"; VStr "agent_pb2_grpc"])
      ∧ star_exports ns = ["agent_pb2"; "agent_pb2_grpc"]
      ∧ public_names ns = {[ "agent_pb2"; "agent_pb2_grpc" ]}.
Proof.
  intros finder.
  assert (H0 : (∅ : modules) !! proto_pkg = None) by reflexivity.
  assert (H1 : importable finder agent_pb2_module ∅)
    by (right; exists ∅; vm_compute; reflexivity).
  assert (H2 : importable finder agent_pb2_grpc_module ∅)
    by (right; exists ∅; vm_compute; reflexivity).
  split; [exact H0|]. split; [exact H1|]. split; [exact H2|].
  destruct (proto_reexports_two_modules finder ∅ H0 H1 H2)
    as (sys' & ns & Hrun & Hns & _ & _ & _ & _ & Hall & Hstar & Hpub).
  exists sys', ns. exact (conj Hrun (conj Hns (conj Hall (conj Hstar Hpub)))).
Defined.

Lemma proto_import_all_or_nothing_witness :
  let finder := toy_finder [agent_pb2_module] in
  (∅ : modules) !! proto_pkg = None
  ∧ ¬ (importable finder agent_pb2_module ∅
       ∧ importable finder agent_pb2_grpc_module ∅)
  ∧ ∃ name sys',
      import_proto finder ∅ = Raise (ImportError name proto_pkg) sys'
      ∧ (name = "agent_pb2" ∨ name = "agent_pb2_grpc")
      ∧ sys' !! proto_pkg = None.
Proof.
  intros finder.
  assert (H0 : (∅ : modules) !! proto_pkg = None) by reflexivity.
  assert (Hno : ¬ (importable finder agent_pb2_module ∅
                   ∧ importable finder agent_pb2_grpc_module ∅)).
  { intros [_ [[m Hm]|[m Hm]]]; vm_compute in Hm; discriminate Hm. }
  split; [exact H0|]. split; [exact Hno|].
  exact (proj2 (proto_import_all_or_nothing finder ∅ H0) Hno).
Defined.

(** ** The Agent Invocation Protocol *)

Lemma chunks_from_snoc rid n datas d :
  chunks_from rid n (datas ++ [d]) =
  chunks_from rid n datas ++
  [Chunk {| chunk_request_id := rid; sequence_number := (n + List.length datas)%nat; data := d |}].
Proof.
  revert n. induction datas as [|x datas IH]; intros n; cbn.
  - by rewrite Nat.add_0_r.
  - rewrite IH. by replace (S n + List.length datas)%nat with (n + S (List.length datas))%nat by lia.
Qed.




Lemma terminals_chunks_from rid n datas : terminals (chunks_from rid n datas) = [].
Proof. revert n. induction datas as [|d datas IH]; intros n; cbn; by rewrite ?IH. Qed.

Lemma stream_of_app rid w1 w2 :
  stream_of rid (w1 ++ w2) = stream_of rid w1 ++ stream_of rid w2.
Proof. apply filter_app. Qed.

(** The messages of a transition carry the request id of the session. *)
Lemma session_step_request_id s e m :
  In m (session_step s e).2 -> message_request_id m = session_request_id s.
Proof.
  unfold session_step.
  destruct (state s), e; cbn; try tauto;
    try (destruct (cancel_requested s); cbn); intros [<-|[]]; done.
Qed.

Lemma session_step_session_request_id s e :
  session_request_id (session_step s e).1 = session_request_id s.
Proof.
  unfold session_step.
  destruct (state s), e; cbn; try done; by destruct (cancel_requested s).
Qed.

Lemma stream_of_own rid w :
  (∀ m, In m w -> message_request_id m = rid) -> stream_of rid w = w.
Proof.
  induction w as [|m w IH]; intros Hall; [done|]. unfold stream_of in *.
  rewrite filter_cons_True by (apply Hall; by left).
  f_equal. apply IH. intros m' Hm'. apply Hall. by right.
Qed.

Lemma stream_of_other rid w rid' :
  rid ≠ rid' -> (∀ m, In m w -> message_request_id m = rid') -> stream_of rid w = [].
Proof.
  intros Hne. induction w as [|m w IH]; intros Hall; [done|]. unfold stream_of in *.
  rewrite filter_cons_False by (rewrite (Hall m) by (by left); congruence).
  apply IH. intros m' Hm'. apply Hall. by right.
Qed.

(** One transition of a session whose stream has the shape of the
    invariant keeps the shape. *)
Lemma session_step_shape s e w datas :
  List.length datas = next_sequence_number s ->
  (if is_terminal (state s)
   then ∃ ts, status_request_id ts = session_request_id s
     ∧ w = chunks_from (session_request_id s) 0 datas ++ [Terminal ts]
   else w = chunks_from (session_request_id s) 0 datas) ->
  ∃ datas', List.length datas' = next_sequence_number (session_step s e).1 ∧
    if is_terminal (state (session_step s e).1)
    then ∃ ts, status_request_id ts = session_request_id s
      ∧ w ++ (session_step s e).2 = chunks_from (session_request_id s) 0 datas' ++ [Terminal ts]
    else w ++ (session_step s e).2 = chunks_from (session_request_id s) 0 datas'.
Proof.
  intros Hlen Hw. unfold session_step, terminal_message.
  destruct (state s) eqn:Hst; cbn in Hw.
  3-5: destruct Hw as (ts & Hts & ->); destruct e; cbn; rewrite Hst; cbn;
       exists datas; rewrite app_nil_r; by eauto.
  all: subst w; destruct e as [|d|summary|description]; cbn;
       try (destruct (cancel_requested s); cbn); rewrite ?Hst; cbn.
  all: try (exists datas; split; [done|]; by rewrite ?app_nil_r).
  all: try (exists datas; split; [done|]; eexists; split; [|reflexivity]; done).
  all: exists (datas ++ [d]); rewrite List.length_app; cbn; split; [lia|];
       by rewrite chunks_from_snoc, Hlen.
Qed.

(** A call that is not the admission of an id seen before keeps the
    invariant of every stream. *)
Lemma handle_stream_invariant h c :
  (∀ rid, stream_invariant h rid) ->
  (∀ req now, c = Invoke req now -> request_id req ∉ seen h) ->
  ∀ rid, stream_invariant (handle h c).1 rid.
Proof.
  intros Hinv Hfresh rid. pose proof (Hinv rid) as Hrid.
  destruct c as [req now|rid'|  |rid' e|rid']; cbn.
  - destruct (deadline_passed req now); [done|].
    destruct (String.eqb (request_id req) ""); [done|].
    case_bool_decide as Hdup; [done|].
    unfold stream_invariant in *. cbn [fst sessions seen wire].
    destruct (decide (rid = request_id req)) as [->|Hne].
    + rewrite lookup_insert_eq. cbn.
      assert (Hnone : sessions h !! request_id req = None).
      { destruct (sessions h !! request_id req); [destruct Hdup; by eauto | done]. }
      rewrite Hnone in Hrid.
      rewrite bool_decide_eq_false_2 in Hrid by (by eapply Hfresh).
      split; [done|]. split; [by apply elem_of_union_l, elem_of_singleton|].
      by exists [].
    + rewrite lookup_insert_ne by done.
      destruct (sessions h !! rid) as [s|].
      * destruct Hrid as (? & ? & ?). split; [done|].
        split; [by apply elem_of_union_r | done].
      * destruct (decide (rid ∈ seen h)).
        -- rewrite bool_decide_eq_true_2 in Hrid by done.
           by rewrite bool_decide_eq_true_2 by (by apply elem_of_union_r).
        -- rewrite bool_decide_eq_false_2 in Hrid by done.
           by rewrite bool_decide_eq_false_2
             by (rewrite elem_of_union, elem_of_singleton; tauto).
  - case_bool_decide as Hseen; [|done]. unfold stream_invariant in *. cbn [fst sessions seen wire].
    destruct (decide (rid = rid')) as [->|Hne].
    + rewrite lookup_alter_eq. destruct (sessions h !! rid') as [s|]; [|done].
      cbn. unfold request_cancel.
      destruct (is_terminal (state s)) eqn:Ht; [by rewrite Ht|]. cbn. by rewrite Ht.
    + by rewrite lookup_alter_ne.
  - done.
  - destruct (sessions h !! rid') as [s|] eqn:Hs; [|done].
    destruct (session_step s e) as [s' out] eqn:Hstep. cbn [fst].
    pose proof (Hinv rid') as Hown. unfold stream_invariant in Hown.
    rewrite Hs in Hown. destruct Hown as (Hid & Hseen & datas & Hlen & Hshape).
    unfold stream_invariant in *. cbn [fst sessions seen wire]. rewrite stream_of_app.
    destruct (decide (rid = rid')) as [->|Hne].
    + rewrite lookup_insert_eq.
      rewrite (stream_of_own rid' out).
      2: { intros m Hm. rewrite <- Hid. apply (session_step_request_id s e).
           by rewrite Hstep. }
      pose proof (session_step_session_request_id s e) as Hid'.
      rewrite Hstep in Hid'. cbn in Hid'.
      split; [congruence|]. split; [done|].
      rewrite <- Hid in Hshape.
      destruct (session_step_shape s e (stream_of rid' (wire h)) datas Hlen)
        as (datas' & Hlen' & Hshape').
      { destruct (is_terminal (state s)); [|congruence].
        destruct Hshape as (ts & ? & ?). exists ts. split; congruence. }
      rewrite Hstep in Hlen', Hshape'. cbn in Hlen', Hshape'.
      exists datas'. split; [done|]. rewrite <- Hid.
      destruct (is_terminal (state s')); [|congruence].
      destruct Hshape' as (ts & ? & ?). exists ts. split; congruence.
    + rewrite lookup_insert_ne by done.
      rewrite (stream_of_other rid out rid' Hne), app_nil_r; [done|].
      intros m Hm. rewrite <- Hid. apply (session_step_request_id s e).
      by rewrite Hstep.
  - destruct (sessions h !! rid') as [s|] eqn:Hs; [|done].
    destruct (is_terminal (state s)) eqn:Ht; [|done].
    unfold stream_invariant in *. cbn [fst sessions seen wire].
    destruct (decide (rid = rid')) as [->|Hne].
    + rewrite lookup_delete_eq. rewrite Hs, Ht in Hrid.
      destruct Hrid as (Hid & Hseen & datas & Hlen & ts & Hts & Hw).
      rewrite bool_decide_eq_true_2 by done. by exists datas, ts.
    + by rewrite lookup_delete_ne.
Qed.

Lemma run_cons h c calls : run h (c :: calls) = run (handle h c).1 calls.
Proof. reflexivity. Qed.



Lemma handle_seen h c rid :
  rid ∈ seen (handle h c).1 ->
  rid ∈ seen h ∨ ∃ req now, c = Invoke req now ∧ rid = request_id req.
Proof.
  destruct c as [req now|rid'|  |rid' e|rid']; cbn.
  - destruct (deadline_passed req now); [by left|].
    destruct (String.eqb (request_id req) ""); [by left|].
    case_bool_decide; [by left|]. cbn. intros [Hin|Hin]%elem_of_union; [|by left].
    apply elem_of_singleton in Hin. right. by exists req, now.
  - case_bool_decide; by left.
  - by left.
  - destruct (sessions h !! rid'); [|by left].
    destruct (session_step s e). by left.
  - destruct (sessions h !! rid'); [|by left].
    destruct (is_terminal (state s)); by left.
Qed.



Lemma run_stream_invariant calls : ∀ h,
  (∀ rid, stream_invariant h rid) ->
  NoDup (invoked calls) ->
  (∀ rid, rid ∈ seen h -> ¬ In rid (invoked calls)) ->
  ∀ rid, stream_invariant (run h calls) rid.
Proof.
  induction calls as [|c calls IH]; intros h Hinv Hnd Hfresh; [done|].
  rewrite run_cons. apply IH.
  - apply handle_stream_invariant; [done|].
    intros req now -> Hin. apply (Hfresh _ Hin). by left.
  - destruct c; cbn in Hnd; try done. by apply NoDup_cons in Hnd as [_ ?].
  - intros rid [Hin|(req & now & -> & ->)]%handle_seen.
    + intros Hi. apply (Hfresh rid Hin). destruct c; cbn; try done. by right.
    + cbn in Hnd. apply NoDup_cons in Hnd as [Hn _].
      intros Hi. apply Hn. by apply list_elem_of_In.
Qed.

Lemma initial_stream_invariant rid : stream_invariant initial_handler rid.
Proof. unfold stream_invariant. cbn. by rewrite lookup_empty. Qed.

Lemma reachable_stream_invariant calls rid :
  NoDup (invoked calls) -> stream_invariant (run initial_handler calls) rid.
Proof.
  intros Hnd. apply run_stream_invariant; [apply initial_stream_invariant|done|].
  intros r Hr. cbn in Hr. by apply not_elem_of_empty in Hr.
Qed.

(** The two shapes a stream can have. *)
Lemma stream_shape h rid :
  stream_invariant h rid ->
  ∃ datas,
    (∀ s, sessions h !! rid = Some s -> List.length datas = next_sequence_number s)
    ∧ ((¬ finished h rid ∧ stream_of rid (wire h) = chunks_from rid 0 datas)
       ∨ (finished h rid
          ∧ ∃ ts, stream_of rid (wire h) = chunks_from rid 0 datas ++ [Terminal ts])).
Proof.
  unfold stream_invariant, finished. destruct (sessions h !! rid) as [s|] eqn:Hs.
  - intros (Hid & Hseen & datas & Hlen & Hshape). exists datas.
    split; [by intros ? [= <-]|].
    destruct (is_terminal (state s)) eqn:Ht.
    + right. destruct Hshape as (ts & _ & ?). split; [|by exists ts].
      split; [done|]. by intros ? [= <-].
    + left. split; [|done]. intros [_ Hall]. specialize (Hall s eq_refl). congruence.
  - case_bool_decide as Hseen.
    + intros (datas & ts & _ & ?). exists datas. split; [done|]. right.
      split; [done | by exists ts].
    + intros Hw. exists []. split; [done|]. left. split; [tauto | done].
Qed.

Lemma In_stream_of rid m w :
  In m (stream_of rid w) ↔ In m w ∧ message_request_id m = rid.
Proof.
  unfold stream_of. rewrite <- !list_elem_of_In, list_elem_of_filter. tauto.
Qed.

Lemma In_terminals ts w : In ts (terminals w) ↔ In (Terminal ts) w.
Proof.
  induction w as [|[c|ts'] w IH]; cbn; [done| |].
  - rewrite IH. split; [by right | by intros [?|?]].
  - rewrite IH. split; (intros [?|?]; [left; congruence | by right]).
Qed.

Lemma In_chunks_from_not_terminal ts rid n datas :
  ¬ In (Terminal ts) (chunks_from rid n datas).
Proof. rewrite <- In_terminals, terminals_chunks_from. tauto. Qed.




(** Cancel on a finished session changes nothing and is acknowledged. *)
Lemma cancel_finished h rid :
  finished h rid -> handle h (Cancel rid) = (h, Acknowledged).
Proof.
  intros [Hseen Hterm]. cbn. rewrite bool_decide_eq_true_2 by done.
  f_equal. destruct h as [tab sn w sv]. cbn in *. f_equal.
  apply map_eq. intros k. rewrite lookup_alter. case_decide as Hk; [|done].
  subst k. destruct (tab !! rid) as [s|] eqn:Hs; [|done]. cbn.
  unfold request_cancel. by rewrite (Hterm s eq_refl).
Qed.

(** C6. With request ids unique per session: once a terminal status for a
    request id is on the wire, Cancel on that id is acknowledged, not
    answered with an error, and leaves the handler as it was; so does
    repeating it. *)
Theorem cancel_after_terminal_is_noop (calls : list Call) (rid : string)
    (ts : TerminalStatus) :
  NoDup (invoked calls) ->
  In (Terminal ts) (wire (run initial_handler calls)) ->
  status_request_id ts = rid ->
  let h := run initial_handler calls in
  handle h (Cancel rid) = (h, Acknowledged)
  ∧ run h [Cancel rid; Cancel rid] = h.
Proof.
  intros Hnd Hin Hid h.
  assert (Hfin : finished h rid).
  { destruct (stream_shape _ rid (reachable_stream_invariant calls rid Hnd))
      as (datas & _ & [[_ Hw]|[Hfin _]]); [|done].
    assert (Hs : In (Terminal ts) (stream_of rid (wire h))) by by apply In_stream_of.
    fold h in Hw. rewrite Hw in Hs. by apply In_chunks_from_not_terminal in Hs. }
  split; [by apply cancel_finished|].
  rewrite run_cons, cancel_finished by done. cbn [fst].
  rewrite run_cons, cancel_finished by done. done.
Qed.

(** C7. A request whose deadline lies before the time of admission is
    rejected with DeadlineExceeded and the handler stays as it was: no
    Session is created, nothing is put on the wire, and the health report,
    with its count of active sessions, is the same. *)
Theorem expired_request_is_rejected (h : Handler) (req : InvocationRequest)
    (now d : Z) :
  deadline req = Some d ->
  (d < now)%Z ->
  handle h (Invoke req now) = (h, Rejected DeadlineExceeded)
  ∧ sessions (handle h (Invoke req now)).1 = sessions h
  ∧ wire (handle h (Invoke req now)).1 = wire h
  ∧ health (handle h (Invoke req now)).1 = health h.
Proof.
  intros Hd Hlt.
  assert (Hrej : handle h (Invoke req now) = (h, Rejected DeadlineExceeded)).
  { cbn. unfold deadline_passed. rewrite Hd.
    by rewrite (proj2 (Z.ltb_lt d now) Hlt). }
  by rewrite Hrej.
Qed.

(** Cancel twice is Cancel once, in any state of the handler. *)
Lemma cancel_idempotent h rid :
  handle (handle h (Cancel rid)).1 (Cancel rid) = handle h (Cancel rid).
Proof.
  cbn [handle]. destruct (bool_decide (rid ∈ seen h)) eqn:Hseen; cbn [fst seen].
  - rewrite Hseen. cbn [sessions wire is_serving]. do 2 f_equal.
    apply map_eq. intros k. destruct (decide (k = rid)) as [->|Hne].
    + rewrite !lookup_alter_eq. destruct (sessions h !! rid) as [s|]; [|done].
      cbn. f_equal. unfold request_cancel.
      destruct (is_terminal (state s)) eqn:Ht; cbn; by rewrite Ht.
    + by rewrite !lookup_alter_ne.
  - by rewrite Hseen.
Qed.

(** *** The scenarios of the specification *)

Example scenario_r1_stream :
  wire (run initial_handler scenario_r1)
  = [ Chunk {| chunk_request_id := "r1"; sequence_number := 0; data := "partial" |};
      Chunk {| chunk_request_id := "r1"; sequence_number := 1; data := "more" |};
      Terminal {| status_request_id := "r1"; outcome := completed; detail := "done" |} ].
Proof. vm_compute. reflexivity. Qed.

Example scenario_r2_expired :
  handle initial_handler
    (Invoke {| request_id := "r2"; payload := "task"; deadline := Some 5 |} 10)
  = (initial_handler, Rejected DeadlineExceeded).
Proof. reflexivity. Qed.

Example scenario_r3_cancelled_before_any_chunk :
  wire (run initial_handler
          [ Invoke {| request_id := "r3"; payload := "task"; deadline := None |} 0;
            Cancel "r3";
            Work "r3" (Yielded "never sent");
            Work "r3" (Yielded "nor this") ])
  = [ Terminal {| status_request_id := "r3"; outcome := cancelled;
                  detail := "cancelled" |} ].
Proof. vm_compute. reflexivity. Qed.

Example cancel_unknown_request :
  handle initial_handler (Cancel "nobody") = (initial_handler, Rejected NotFound).
Proof. reflexivity. Qed.



Lemma cancel_after_terminal_is_noop_witness :
  let ts := {| status_request_id := "r1"; outcome := completed; detail := "done" |} in
  let h := run initial_handler scenario_r1 in
  NoDup (invoked scenario_r1)
  ∧ In (Terminal ts) (wire h)
  ∧ handle h (Cancel "r1") = (h, Acknowledged)
  ∧ run h [Cancel "r1"; Cancel "r1"] = h.
Proof.
  intros ts h.
  assert (Hnd : NoDup (invoked scenario_r1))
    by (vm_compute; apply NoDup_singleton).
  assert (Hin : In (Terminal ts) (wire h))
    by (vm_compute; do 2 right; left; reflexivity).
  split; [exact Hnd|]. split; [exact Hin|].
  exact (cancel_after_terminal_is_noop scenario_r1 "r1" ts Hnd Hin eq_refl).
Defined.

Lemma expired_request_is_rejected_witness :
  let req := {| request_id := "r2"; payload := "task"; deadline := Some 5 |} in
  deadline req = Some 5
  ∧ (5 < 10)%Z
  ∧ handle initial_handler (Invoke req 10) = (initial_handler, Rejected DeadlineExceeded)
  ∧ sessions (handle initial_handler (Invoke req 10)).1 = sessions initial_handler
  ∧ wire (handle initial_handler (Invoke req 10)).1 = wire initial_handler
  ∧ health (handle initial_handler (Invoke req 10)).1 = health initial_handler.
Proof.
  intros req.
  assert (Hd : deadline req = Some 5) by reflexivity.
  assert (Hlt : (5 < 10)%Z) by lia.
  split; [exact Hd|]. split; [exact Hlt|].
  exact (expired_request_is_rejected initial_handler req 10 5 Hd Hlt).
Defined.

(** ** Further properties: runs that meet their hypotheses *)

Lemma commands_follow_script_order_witness :
  ∃ o w' t,
    toy_main [] ["setup.py"] ["y"; "y"; "y"] = (o, w', t)
    ∧ map fst (commands t) = script_order
    ∧ sublist (map fst (commands t)) script_order
    ∧ (map fst (commands t) `prefix_of` [clean_cmd; build_cmd; check_cmd]
       ∨ [clean_cmd; build_cmd; check_cmd] `prefix_of` map fst (commands t)).
Proof.
  set (r := toy_main [] ["setup.py"] ["y"; "y"; "y"]).
  assert (Hrun : r = (r.1.1, r.1.2, r.2)) by (vm_compute; reflexivity).
  exists r.1.1, r.1.2, r.2. split; [exact Hrun|].
  split; [vm_compute; reflexivity|].
  exact (@commands_follow_script_order (toy_system []) _ _ _ _ Hrun).
Defined.

Lemma command_needs_earlier_successes_witness :
  ∃ o w' t pre p post,
    toy_main [] ["setup.py"] ["y"; "y"; "y"] = (o, w', t)
    ∧ t = pre ++ ERun test_install_cmd p :: post
    ∧ In testpypi_upload_cmd (prerequisites (ERun test_install_cmd p))
    ∧ ∃ pd, In (ERun testpypi_upload_cmd pd) pre ∧ returncode pd = 0.
Proof.
  set (r := toy_main [] ["setup.py"] ["y"; "y"; "y"]).
  set (p := {| returncode := 0; stdout := ""; stderr := "" |}).
  assert (Hrun : r = (r.1.1, r.1.2, r.2)) by (vm_compute; reflexivity).
  assert (Ht : r.2 = firstn 19 r.2 ++ ERun test_install_cmd p :: skipn 20 r.2)
    by (vm_compute; reflexivity).
  assert (Hd : In testpypi_upload_cmd (prerequisites (ERun test_install_cmd p)))
    by (vm_compute; do 3 right; left; reflexivity).
  exists r.1.1, r.1.2, r.2, (firstn 19 r.2), p, (skipn 20 r.2).
  split; [exact Hrun|]. split; [exact Ht|]. split; [exact Hd|].
  exact (@command_needs_earlier_successes (toy_system []) _ _ _ _ _ _ _ _ _
           Hrun Ht Hd).
Defined.

Lemma prompt_needs_earlier_successes_witness :
  ∃ o w' t pre post,
    toy_main [] ["setup.py"] ["y"; "y"; "y"] = (o, w', t)
    ∧ t = pre ++ EInput test_install_prompt (Some "y") :: post
    ∧ In testpypi_upload_cmd
        (prerequisites (EInput test_install_prompt (Some "y")))
    ∧ ∃ pd, In (ERun testpypi_upload_cmd pd) pre ∧ returncode pd = 0.
Proof.
  set (r := toy_main [] ["setup.py"] ["y"; "y"; "y"]).
  assert (Hrun : r = (r.1.1, r.1.2, r.2)) by (vm_compute; reflexivity).
  assert (Ht : r.2 = firstn 17 r.2
                       ++ EInput test_install_prompt (Some "y") :: skipn 18 r.2)
    by (vm_compute; reflexivity).
  assert (Hd : In testpypi_upload_cmd
                 (prerequisites (EInput test_install_prompt (Some "y"))))
    by (vm_compute; do 3 right; left; reflexivity).
  exists r.1.1, r.1.2, r.2, (firstn 17 r.2), (skipn 18 r.2).
  split; [exact Hrun|]. split; [exact Ht|]. split; [exact Hd|].
  exact (@prompt_needs_earlier_successes (toy_system []) _ _ _ _ _ _ _ _ _
           Hrun Ht Hd).
Defined.



Lemma nothing_uploaded_without_input_witness :
  ∃ o w' t,
    toy_main [] ["setup.py"] [] = (o, w', t)
    ∧ stdin (toy_world [] ["setup.py"] []) = []
    ∧ o ≠ Returned tt
    ∧ ¬ (∃ p, In (ERun testpypi_upload_cmd p) t)
    ∧ ¬ (∃ p, In (ERun test_install_cmd p) t)
    ∧ ¬ (∃ p, In (ERun pypi_upload_cmd p) t).
Proof.
  set (r := toy_main [] ["setup.py"] []).
  assert (Hrun : r = (r.1.1, r.1.2, r.2)) by (vm_compute; reflexivity).
  exists r.1.1, r.1.2, r.2. split; [exact Hrun|]. split; [reflexivity|].
  exact (@nothing_uploaded_without_input (toy_system []) _ _ _ _ Hrun eq_refl).
Defined.



Lemma host_changes_only_through_shell_witness :
  ∃ o w' t,
    toy_main [] ["setup.py"; "dist"] ["n"; "n"] = (o, w', t)
    ∧ host w' = ["build"; "dist"; "setup.py"]
    ∧ @shell_seq (toy_system []) (map fst (commands t)) ["setup.py"; "dist"]
      = (map snd (commands t), host w').
Proof.
  set (r := toy_main [] ["setup.py"; "dist"] ["n"; "n"]).
  assert (Hrun : r = (r.1.1, r.1.2, r.2)) by (vm_compute; reflexivity).
  exists r.1.1, r.1.2, r.2. split; [exact Hrun|].
  split; [vm_compute; reflexivity|].
  exact (@host_changes_only_through_shell (toy_system []) _ _ _ _ Hrun).
Defined.

Lemma only_y_is_yes_witness :
  ∃ o w' t,
    toy_main [] ["setup.py"] ["n"; "yes"] = (o, w', t)
    ∧ In (EInput pypi_prompt (Some "yes")) t
    ∧ ((∃ p, In (ERun pypi_upload_cmd p) t) ↔ "yes" = "y" ∨ "yes" = "Y").
Proof.
  set (r := toy_main [] ["setup.py"] ["n"; "yes"]).
  assert (Hrun : r = (r.1.1, r.1.2, r.2)) by (vm_compute; reflexivity).
  assert (Hin : In (EInput pypi_prompt (Some "yes")) r.2)
    by (vm_compute; do 11 right; left; reflexivity).
  exists r.1.1, r.1.2, r.2. split; [exact Hrun|]. split; [exact Hin|].
  exact (proj1 (@only_y_is_yes (toy_system []) _ _ _ _ "yes" Hrun) Hin).
Defined.




Lemma proto_import_twice_witness :
  let finder := toy_finder [agent_pb2_module; agent_pb2_grpc_module] in
  let sys' := result_modules (import_proto finder ∅) in
  import_proto finder ∅ = Normal sys'
  ∧ import_proto (toy_finder []) sys' = Normal sys'.
Proof.
  intros finder sys'.
  assert (Hrun : import_proto finder ∅ = Normal sys')
    by (vm_compute; reflexivity).
  split; [exact Hrun|].
  exact (proto_import_twice finder (toy_finder []) ∅ sys' Hrun).
Defined.

Lemma proto_exports_are_bound_witness :
  let finder := toy_finder [agent_pb2_module; agent_pb2_grpc_module] in
  let sys' := result_modules (import_proto finder ∅) in
  (∅ : modules) !! proto_pkg = None
  ∧ import_proto finder ∅ = Normal sys'
  ∧ ∃ ns, sys' !! proto_pkg = Some ns
      ∧ (In "agent_pb2" (star_exports ns) ->
         is_public "agent_pb2" = true
         ∧ ∃ q, ns !! "agent_pb2" = Some (VModule q) ∧ is_Some (sys' !! q)).
Proof.
  intros finder sys'.
  assert (H0 : (∅ : modules) !! proto_pkg = None) by reflexivity.
  assert (Hrun : import_proto finder ∅ = Normal sys')
    by (vm_compute; reflexivity).
  split; [exact H0|]. split; [exact Hrun|].
  exact (proto_exports_are_bound finder ∅ sys' "agent_pb2" H0 Hrun).
Defined.
